(** * Windows Hello keychain (WinHello_Native.cpp)

    A shallow embedding of the native half of the Windows Hello keychain
    backend: the two JNI entry points [setEncryptionKey] and
    [getEncryptionKey], the helper [deriveEncryptionKey] and the buffer
    conversions they use.

    The file has three layers.
    - The Windows Runtime primitives the code calls by name
      ([HashAlgorithmNames::Sha256], [SymmetricAlgorithmNames::AesCbcPkcs7])
      are written out from their standards (FIPS 180-4, FIPS 197, CBC
      chaining, PKCS#7 padding), so that lengths, round trips and concrete
      envelopes can be computed.
    - What depends on the host is an interface ([Platform]): the COM
      apartment, the credential provider behind [KeyCredentialManager]
      (hardware and user), and which block the cipher engine takes from
      the buffer it is given as initialization vector.  [Mock] is a
      scripted in-memory instance, [Recording] logs the calls of another.
    - The functions of the source file, written in a state-and-exception
      monad that keeps the order of the calls, the early returns and the
      two [catch] clauses of the source. *)

From Stdlib Require Import List ZArith NArith Bool String Lia Btauto.
From Stdlib Require Import Strings.Byte.
Import ListNotations.

Set Implicit Arguments.

(** ** Bytes *)

Definition bytes : Type := list byte.

Definition bits8 : Type :=
  bool * (bool * (bool * (bool * (bool * (bool * (bool * bool)))))).

Definition byte_of_Z (z : Z) : byte :=
  match Byte.of_N (Z.to_N (z mod 256)) with
  | Some b => b
  | None => x00
  end.

Definition Z_of_byte (b : byte) : Z := Z.of_N (Byte.to_N b).

Definition byte_of_nat (n : nat) : byte := byte_of_Z (Z.of_nat n).

Definition all_bytes : list byte :=
  Eval vm_compute in map byte_of_nat (seq 0 256).

(** ** The field GF(2^8) of FIPS 197, section 4 *)

Module GF256.

Definition xor8 (a b : bits8) : bits8 :=
  let '(a0, (a1, (a2, (a3, (a4, (a5, (a6, a7))))))) := a in
  let '(b0, (b1, (b2, (b3, (b4, (b5, (b6, b7))))))) := b in
  (xorb a0 b0, (xorb a1 b1, (xorb a2 b2, (xorb a3 b3,
  (xorb a4 b4, (xorb a5 b5, (xorb a6 b6, xorb a7 b7))))))).

(** Multiplication by x modulo x^8 + x^4 + x^3 + x + 1: a left shift,
    and the overflowing bit folded back into bits 0, 1, 3 and 4. *)
Definition xtime8 (a : bits8) : bits8 :=
  let '(a0, (a1, (a2, (a3, (a4, (a5, (a6, a7))))))) := a in
  (a7, (xorb a0 a7, (a1, (xorb a2 a7, (xorb a3 a7, (a4, (a5, a6))))))).

Definition scale8 (c : bool) (a : bits8) : bits8 :=
  let '(a0, (a1, (a2, (a3, (a4, (a5, (a6, a7))))))) := a in
  (c && a0, (c && a1, (c && a2, (c && a3,
  (c && a4, (c && a5, (c && a6, c && a7))))))).

(** [mul8 a b] is the product a * b, by Horner's rule on the bits of b. *)
Definition mul8 (a b : bits8) : bits8 :=
  let '(b0, (b1, (b2, (b3, (b4, (b5, (b6, b7))))))) := b in
  let h7 := scale8 b7 a in
  let h6 := xor8 (scale8 b6 a) (xtime8 h7) in
  let h5 := xor8 (scale8 b5 a) (xtime8 h6) in
  let h4 := xor8 (scale8 b4 a) (xtime8 h5) in
  let h3 := xor8 (scale8 b3 a) (xtime8 h4) in
  let h2 := xor8 (scale8 b2 a) (xtime8 h3) in
  let h1 := xor8 (scale8 b1 a) (xtime8 h2) in
  xor8 (scale8 b0 a) (xtime8 h1).

Definition bxor (a b : byte) : byte := of_bits (xor8 (to_bits a) (to_bits b)).
Definition xtime (a : byte) : byte := of_bits (xtime8 (to_bits a)).
Definition gmul (a b : byte) : byte := of_bits (mul8 (to_bits a) (to_bits b)).

Definition gsquare (a : byte) : byte := gmul a a.

(** The multiplicative inverse, as the 254th power; 0 is mapped to 0. *)
Definition ginv (a : byte) : byte :=
  let a2 := gsquare a in
  let a4 := gsquare a2 in
  let a8 := gsquare a4 in
  let a16 := gsquare a8 in
  let a32 := gsquare a16 in
  let a64 := gsquare a32 in
  let a128 := gsquare a64 in
  gmul a2 (gmul a4 (gmul a8 (gmul a16 (gmul a32 (gmul a64 a128))))).

End GF256.

(** ** AES (FIPS 197) *)

Module AES.
Import GF256.

(** The affine transformation of the S-box, with the constant 0x63. *)
Definition affine8 (b : bits8) : bits8 :=
  let '(b0, (b1, (b2, (b3, (b4, (b5, (b6, b7))))))) := b in
  let x5 (p q r s t : bool) := xorb p (xorb q (xorb r (xorb s t))) in
  (negb (x5 b0 b4 b5 b6 b7), (negb (x5 b1 b5 b6 b7 b0),
  (x5 b2 b6 b7 b0 b1, (x5 b3 b7 b0 b1 b2,
  (x5 b4 b0 b1 b2 b3, (negb (x5 b5 b1 b2 b3 b4),
  (negb (x5 b6 b2 b3 b4 b5), x5 b7 b3 b4 b5 b6))))))).

Definition sbox_def (a : byte) : byte := of_bits (affine8 (to_bits (ginv a))).

Definition sbox_table : list byte :=
  Eval vm_compute in map sbox_def all_bytes.

Definition sbox (a : byte) : byte := nth (Byte.to_nat a) sbox_table x00.

Definition inv_sbox_def (b : byte) : byte :=
  match find (fun a => Byte.eqb (sbox a) b) all_bytes with
  | Some a => a
  | None => x00
  end.

Definition inv_sbox_table : list byte :=
  Eval vm_compute in map inv_sbox_def all_bytes.

Definition inv_sbox (a : byte) : byte := nth (Byte.to_nat a) inv_sbox_table x00.

(** A word is a column of the state: four bytes, row 0 first. *)
Definition word : Type := (byte * byte * byte * byte)%type.

(** The state, as its four columns. *)
Definition state : Type := (word * word * word * word)%type.

Definition wmap (f : byte -> byte) (w : word) : word :=
  let '(a0, a1, a2, a3) := w in (f a0, f a1, f a2, f a3).

Definition wxor (a b : word) : word :=
  let '(a0, a1, a2, a3) := a in
  let '(b0, b1, b2, b3) := b in
  (bxor a0 b0, bxor a1 b1, bxor a2 b2, bxor a3 b3).

Definition smap (f : word -> word) (s : state) : state :=
  let '(c0, c1, c2, c3) := s in (f c0, f c1, f c2, f c3).

Definition sxor (a b : state) : state :=
  let '(a0, a1, a2, a3) := a in
  let '(b0, b1, b2, b3) := b in
  (wxor a0 b0, wxor a1 b1, wxor a2 b2, wxor a3 b3).

Definition SubBytes : state -> state := smap (wmap sbox).
Definition InvSubBytes : state -> state := smap (wmap inv_sbox).

(** Row r is rotated left by r columns. *)
Definition ShiftRows (s : state) : state :=
  let '((a0, a1, a2, a3), (b0, b1, b2, b3),
        (c0, c1, c2, c3), (d0, d1, d2, d3)) := s in
  ((a0, b1, c2, d3), (b0, c1, d2, a3), (c0, d1, a2, b3), (d0, a1, b2, c3)).

Definition InvShiftRows (s : state) : state :=
  let '((a0, a1, a2, a3), (b0, b1, b2, b3),
        (c0, c1, c2, c3), (d0, d1, d2, d3)) := s in
  ((a0, d1, c2, b3), (b0, a1, d2, c3), (c0, b1, a2, d3), (d0, c1, b2, a3)).

Definition x4 (p q r s : byte) : byte := bxor p (bxor q (bxor r s)).

Definition mix_column (w : word) : word :=
  let '(a0, a1, a2, a3) := w in
  (x4 (gmul a0 x02) (gmul a1 x03) a2 a3,
   x4 a0 (gmul a1 x02) (gmul a2 x03) a3,
   x4 a0 a1 (gmul a2 x02) (gmul a3 x03),
   x4 (gmul a0 x03) a1 a2 (gmul a3 x02)).

Definition inv_mix_column (w : word) : word :=
  let '(a0, a1, a2, a3) := w in
  (x4 (gmul a0 x0e) (gmul a1 x0b) (gmul a2 x0d) (gmul a3 x09),
   x4 (gmul a0 x09) (gmul a1 x0e) (gmul a2 x0b) (gmul a3 x0d),
   x4 (gmul a0 x0d) (gmul a1 x09) (gmul a2 x0e) (gmul a3 x0b),
   x4 (gmul a0 x0b) (gmul a1 x0d) (gmul a2 x09) (gmul a3 x0e)).

Definition MixColumns : state -> state := smap mix_column.
Definition InvMixColumns : state -> state := smap inv_mix_column.

Definition AddRoundKey (rk s : state) : state := sxor s rk.

Definition Round (rk s : state) : state :=
  AddRoundKey rk (MixColumns (ShiftRows (SubBytes s))).

Definition FinalRound (rk s : state) : state :=
  AddRoundKey rk (ShiftRows (SubBytes s)).

Definition InvRound (rk s : state) : state :=
  InvSubBytes (InvShiftRows (InvMixColumns (AddRoundKey rk s))).

Definition InvFinalRound (rk s : state) : state :=
  InvSubBytes (InvShiftRows (AddRoundKey rk s)).

(** [Cipher] of FIPS 197, Fig. 5, over the list of round keys. *)
Definition Cipher (rks : list state) (s : state) : state :=
  match rks with
  | [] => s
  | k0 :: ks =>
      FinalRound (last ks k0)
        (fold_left (fun st rk => Round rk st) (removelast ks)
           (AddRoundKey k0 s))
  end.

(** [InvCipher] of FIPS 197, Fig. 12: the rounds undone last to first. *)
Definition InvCipher (rks : list state) (s : state) : state :=
  match rks with
  | [] => s
  | k0 :: ks =>
      AddRoundKey k0
        (fold_right (fun rk st => InvRound rk st)
           (InvFinalRound (last ks k0) s) (removelast ks))
  end.

(** *** Key expansion (FIPS 197, section 5.2) *)

Definition zero_word : word := (x00, x00, x00, x00).

Definition SubWord : word -> word := wmap sbox.

Definition RotWord (w : word) : word :=
  let '(a0, a1, a2, a3) := w in (a1, a2, a3, a0).

Definition Rcon (i : nat) : word :=
  (Nat.iter (i - 1) xtime x01, x00, x00, x00).

Fixpoint words_of_bytes (l : bytes) : list word :=
  match l with
  | a :: b :: c :: d :: rest => (a, b, c, d) :: words_of_bytes rest
  | _ => []
  end.

Definition next_word (Nk i : nat) (ws : list word) : word :=
  let temp := nth (i - 1) ws zero_word in
  let temp :=
    if (i mod Nk =? 0)%nat then wxor (SubWord (RotWord temp)) (Rcon (i / Nk))
    else if ((6 <? Nk) && (i mod Nk =? 4))%nat then SubWord temp
    else temp in
  wxor (nth (i - Nk) ws zero_word) temp.

Fixpoint expand (Nk fuel i : nat) (ws : list word) : list word :=
  match fuel with
  | O => ws
  | S fuel' => expand Nk fuel' (S i) (ws ++ [next_word Nk i ws])
  end.

(** Nk = key length in words, Nr = Nk + 6 rounds, 4 * (Nr + 1) words. *)
Definition KeyExpansion (key : bytes) : list word :=
  let Nk := (List.length key / 4)%nat in
  expand Nk (4 * (Nk + 7) - Nk) Nk (words_of_bytes key).

Fixpoint round_keys (ws : list word) : list state :=
  match ws with
  | a :: b :: c :: d :: rest => (a, b, c, d) :: round_keys rest
  | _ => []
  end.

Definition key_schedule (key : bytes) : list state :=
  round_keys (KeyExpansion key).

(** *** Blocks of sixteen bytes *)

Definition BlockLength : nat := 16.

Definition word_of_bytes (l : bytes) : word :=
  (nth 0 l x00, nth 1 l x00, nth 2 l x00, nth 3 l x00).

Definition bytes_of_word (w : word) : bytes :=
  let '(a0, a1, a2, a3) := w in [a0; a1; a2; a3].

Definition state_of_bytes (l : bytes) : state :=
  (word_of_bytes l, word_of_bytes (skipn 4 l),
   word_of_bytes (skipn 8 l), word_of_bytes (skipn 12 l)).

Definition bytes_of_state (s : state) : bytes :=
  let '(c0, c1, c2, c3) := s in
  bytes_of_word c0 ++ bytes_of_word c1 ++ bytes_of_word c2 ++ bytes_of_word c3.

End AES.

(** ** Hexadecimal notation for byte strings *)

Definition nibble (c : Ascii.ascii) : Z :=
  let n := Z.of_nat (Ascii.nat_of_ascii c) in
  (if (48 <=? n) && (n <=? 57) then n - 48
   else if (97 <=? n) && (n <=? 102) then n - 87
   else if (65 <=? n) && (n <=? 70) then n - 55
   else 0)%Z.

Fixpoint hex (s : string) : bytes :=
  match s with
  | String hi (String lo rest) => byte_of_Z (16 * nibble hi + nibble lo) :: hex rest
  | _ => []
  end.

Definition aes_block (key input : string) : bytes :=
  AES.bytes_of_state
    (AES.Cipher (AES.key_schedule (hex key)) (AES.state_of_bytes (hex input))).

Definition aes_inv_block (key input : string) : bytes :=
  AES.bytes_of_state
    (AES.InvCipher (AES.key_schedule (hex key)) (AES.state_of_bytes (hex input))).


(** ** SHA-256 (FIPS 180-4) *)

Module SHA256.
Local Open Scope Z_scope.

(** Words are 32-bit: every sum is taken modulo 2^32. *)
Definition wrap (z : Z) : Z := z mod 4294967296.
Definition add32 (a b : Z) : Z := wrap (a + b).

Definition rotr (n x : Z) : Z :=
  wrap (Z.lor (Z.shiftr x n) (Z.shiftl x (32 - n))).
Definition shr (n x : Z) : Z := Z.shiftr x n.

Definition Ch (x y z : Z) : Z :=
  Z.lxor (Z.land x y) (Z.land (wrap (Z.lnot x)) z).
Definition Maj (x y z : Z) : Z :=
  Z.lxor (Z.land x y) (Z.lxor (Z.land x z) (Z.land y z)).
Definition Sigma0 (x : Z) : Z := Z.lxor (rotr 2 x) (Z.lxor (rotr 13 x) (rotr 22 x)).
Definition Sigma1 (x : Z) : Z := Z.lxor (rotr 6 x) (Z.lxor (rotr 11 x) (rotr 25 x)).
Definition sigma0 (x : Z) : Z := Z.lxor (rotr 7 x) (Z.lxor (rotr 18 x) (shr 3 x)).
Definition sigma1 (x : Z) : Z := Z.lxor (rotr 17 x) (Z.lxor (rotr 19 x) (shr 10 x)).

(** The constants are the fractional parts of the cube roots (K) and of
    the square roots (H0) of the first primes; they are computed here
    rather than copied. *)
Definition is_prime (n : nat) : bool :=
  (2 <=? n)%nat && forallb (fun d => negb (n mod d =? 0)%nat) (seq 2 (n - 2)).

Definition primes64 : list Z :=
  Eval vm_compute in map Z.of_nat (firstn 64 (filter is_prime (seq 2 310))).

Fixpoint cube_root_bits (bit : nat) (n r : Z) : Z :=
  match bit with
  | O => r
  | S b =>
      let c := r + 2 ^ Z.of_nat b in
      cube_root_bits b n (if c * c * c <=? n then c else r)
  end.

Definition cube_root (n : Z) : Z := cube_root_bits 64 n 0.

Definition K : list Z :=
  Eval vm_compute in map (fun p => wrap (cube_root (p * 2 ^ 96))) primes64.

Definition H0 : list Z :=
  Eval vm_compute in map (fun p => wrap (Z.sqrt (p * 2 ^ 64))) (firstn 8 primes64).

Definition hash : Type := (Z * Z * Z * Z * Z * Z * Z * Z)%type.

Definition initial_hash : hash :=
  (nth 0 H0 0, nth 1 H0 0, nth 2 H0 0, nth 3 H0 0,
   nth 4 H0 0, nth 5 H0 0, nth 6 H0 0, nth 7 H0 0).

Definition be32 (l : bytes) : Z :=
  Z_of_byte (nth 0 l x00) * 16777216 + Z_of_byte (nth 1 l x00) * 65536
  + Z_of_byte (nth 2 l x00) * 256 + Z_of_byte (nth 3 l x00).

Definition word_bytes (w : Z) : bytes :=
  [byte_of_Z (Z.shiftr w 24); byte_of_Z (Z.shiftr w 16);
   byte_of_Z (Z.shiftr w 8); byte_of_Z w].

Definition be64 (n : Z) : bytes :=
  word_bytes (Z.shiftr n 32) ++ word_bytes n.

(** Section 5.1.1: a 1 bit, zeros up to 56 modulo 64 bytes, and the
    length in bits on 64 bits. *)
Definition pad (msg : bytes) : bytes :=
  let len := Z.of_nat (List.length msg) in
  msg ++ [x80] ++ repeat x00 (Z.to_nat ((55 - len) mod 64)) ++ be64 (8 * len).

Fixpoint words_of_block (n : nat) (l : bytes) : list Z :=
  match n with
  | O => []
  | S n' => be32 l :: words_of_block n' (skipn 4 l)
  end.

(** Section 6.2.2, step 1; [rw] holds W(t-1), W(t-2), ... newest first. *)
Fixpoint schedule (fuel : nat) (rw : list Z) : list Z :=
  match fuel with
  | O => rev rw
  | S fuel' =>
      let w := add32 (add32 (sigma1 (nth 1 rw 0)) (nth 6 rw 0))
                     (add32 (sigma0 (nth 14 rw 0)) (nth 15 rw 0)) in
      schedule fuel' (w :: rw)
  end.

Definition round (h : hash) (kw : Z * Z) : hash :=
  let '(a, b, c, d, e, f, g, hh) := h in
  let '(k, w) := kw in
  let T1 := add32 (add32 (add32 hh (Sigma1 e)) (add32 (Ch e f g) k)) w in
  let T2 := add32 (Sigma0 a) (Maj a b c) in
  (add32 T1 T2, a, b, c, add32 d T1, e, f, g).

Definition compress (h : hash) (block : bytes) : hash :=
  let W := schedule 48 (rev (words_of_block 16 block)) in
  let '(a, b, c, d, e, f, g, hh) := fold_left round (combine K W) h in
  let '(a0, b0, c0, d0, e0, f0, g0, h0) := h in
  (add32 a0 a, add32 b0 b, add32 c0 c, add32 d0 d,
   add32 e0 e, add32 f0 f, add32 g0 g, add32 h0 hh).

Fixpoint process (n : nat) (l : bytes) (h : hash) : hash :=
  match n with
  | O => h
  | S n' => process n' (skipn 64 l) (compress h l)
  end.

Definition digest (h : hash) : bytes :=
  let '(a, b, c, d, e, f, g, hh) := h in
  word_bytes a ++ word_bytes b ++ word_bytes c ++ word_bytes d
  ++ word_bytes e ++ word_bytes f ++ word_bytes g ++ word_bytes hh.

Definition sha256 (msg : bytes) : bytes :=
  let m := pad msg in
  digest (process (List.length m / 64) m initial_hash).

End SHA256.

Definition bytes_of_string (s : string) : bytes := list_byte_of_string s.

(** ** CBC chaining and PKCS#7 padding over AES *)

Module CBC.
Import AES.

Fixpoint blocks_of (n : nat) (l : bytes) : list state :=
  match n with
  | O => []
  | S n' => state_of_bytes l :: blocks_of n' (skipn BlockLength l)
  end.

Definition bytes_of_blocks (bs : list state) : bytes :=
  flat_map bytes_of_state bs.

(** C(i) = E(P(i) xor C(i-1)), with C(0) the initialization vector. *)
Fixpoint encrypt_blocks (rks : list state) (prev : state) (ps : list state)
  : list state :=
  match ps with
  | [] => []
  | p :: ps' =>
      let c := Cipher rks (sxor p prev) in
      c :: encrypt_blocks rks c ps'
  end.

(** P(i) = D(C(i)) xor C(i-1). *)
Fixpoint decrypt_blocks (rks : list state) (prev : state) (cs : list state)
  : list state :=
  match cs with
  | [] => []
  | c :: cs' => sxor (InvCipher rks c) prev :: decrypt_blocks rks c cs'
  end.

(** Between 1 and 16 bytes are added, each holding their number. *)
Definition pad_length (data : bytes) : nat :=
  (BlockLength - List.length data mod BlockLength)%nat.

Definition pkcs7_pad (data : bytes) : bytes :=
  let n := pad_length data in
  data ++ repeat (byte_of_nat n) n.

Definition pkcs7_unpad (l : bytes) : option bytes :=
  let v := last l x00 in
  let n := Byte.to_nat v in
  if ((1 <=? n) && (n <=? BlockLength) && (n <=? List.length l)
      && forallb (Byte.eqb v) (skipn (List.length l - n) l))%nat
  then Some (firstn (List.length l - n) l)
  else None.

Definition encrypt (key iv data : bytes) : bytes :=
  let padded := pkcs7_pad data in
  bytes_of_blocks
    (encrypt_blocks (key_schedule key) (state_of_bytes iv)
       (blocks_of (List.length padded / BlockLength) padded)).

Definition decrypt (key iv data : bytes) : option bytes :=
  pkcs7_unpad
    (bytes_of_blocks
       (decrypt_blocks (key_schedule key) (state_of_bytes iv)
          (blocks_of (List.length data / BlockLength) data))).

End CBC.

(** ** Outcomes of native code *)

(** The two exception types of the source.  [winrt::hresult_error] is a
    plain struct with a [message()]; it does not derive from
    [std::exception], whose members have a [what()].  [std::runtime_error]
    is a [std::exception]. *)
Inductive exn : Type :=
| hresult_error (message : string)
| std_exception (what : string).

(** A call returns, throws a C++ exception, or dereferences a null
    reference; the last is no C++ exception and no [catch] sees it. *)
Inductive Outcome (A : Type) : Type :=
| Ret (a : A)
| Throw (e : exn)
| NullDeref.

Arguments Ret {A} a.
Arguments Throw {A} e.
Arguments NullDeref {A}.

(** ** Windows Runtime types *)

(** [IBuffer] is a reference: null, or a buffer of bytes. *)
Definition IBuffer : Type := option bytes.

(** [Windows::Security::Credentials::KeyCredentialStatus]. *)
Inductive KeyCredentialStatus : Type :=
| Success
| UnknownError
| NotFound
| UserCanceled
| UserPrefersPassword
| CredentialAlreadyExists
| SecurityDeviceLocked.

Definition status_eqb (a b : KeyCredentialStatus) : bool :=
  match a, b with
  | Success, Success
  | UnknownError, UnknownError
  | NotFound, NotFound
  | UserCanceled, UserCanceled
  | UserPrefersPassword, UserPrefersPassword
  | CredentialAlreadyExists, CredentialAlreadyExists
  | SecurityDeviceLocked, SecurityDeviceLocked => true
  | _, _ => false
  end.

Inductive KeyCredentialCreationOption : Type :=
| ReplaceExisting
| FailIfExists.

(** [KeyCredentialRetrievalResult]: [Credential] is null unless the
    status is [Success]. *)
Record KeyCredentialRetrievalResult (KeyCredential : Type) : Type := {
  Status : KeyCredentialStatus;
  Credential : option KeyCredential
}.

(** [KeyCredentialOperationResult]. *)
Record KeyCredentialOperationResult : Type := {
  OpStatus : KeyCredentialStatus;
  Result : IBuffer
}.

(** What the host provides and this code cannot compute: the COM
    apartment and the credential provider behind [KeyCredentialManager].
    Each operation reads and changes the state of the host ([World]) and
    may throw. *)
Record Platform : Type := {
  World : Type;
  KeyCredential : Type;
  init_apartment : World -> Outcome unit * World;
  RequestCreateAsync :
    string -> KeyCredentialCreationOption -> World ->
    Outcome (KeyCredentialRetrievalResult KeyCredential) * World;
  OpenAsync :
    string -> World ->
    Outcome (KeyCredentialRetrievalResult KeyCredential) * World;
  RequestSignAsync :
    KeyCredential -> IBuffer -> World ->
    Outcome KeyCredentialOperationResult * World;
  (** The initialization vector the cipher engine takes from the buffer
      it is given: one block, or nothing when it refuses the buffer. *)
  engine_vector : IBuffer -> option bytes
}.

(** *** Buffers, hashing and the cipher engine *)

Definition E_POINTER : string := "Invalid pointer".
Definition E_INVALIDARG : string := "The parameter is incorrect.".
Definition NTE_BAD_DATA : string := "Bad Data.".

(** [CryptographicBuffer::CreateFromByteArray]: a new buffer that holds a
    copy of the bytes.  Every byte sequence is accepted, the empty one
    included: the call refuses no argument.  Like the other allocations
    of the source ([std::vector], [NewByteArray]) it is taken to find the
    memory it needs, so that no property below speaks of a process that
    has run out of memory.  In [deriveEncryptionKey] the call stands before
    the [try] block, and the model keeps it there. *)
Definition CreateFromByteArray (value : bytes) : IBuffer := Some value.

(** [DataReader]: the bytes not yet consumed. *)
Record DataReader : Type := { unconsumed : bytes }.

Definition FromBuffer (buffer : IBuffer) : Outcome DataReader :=
  match buffer with
  | None => Throw (hresult_error E_POINTER)
  | Some b => Ret {| unconsumed := b |}
  end.

Definition UnconsumedBufferLength (r : DataReader) : nat :=
  List.length (unconsumed r).

(** [ReadBytes] fills an array of the given size from the reader. *)
Definition ReadBytes (r : DataReader) (size : nat) : bytes :=
  firstn size (unconsumed r).

(** [DataWriter]: the bytes written so far. *)
Record DataWriter : Type := { written : bytes }.

Definition WriteBytes (w : DataWriter) (value : bytes) : DataWriter :=
  {| written := written w ++ value |}.

Definition DetachBuffer (w : DataWriter) : IBuffer := Some (written w).

(** [HashAlgorithmNames::Sha256()] and [SymmetricAlgorithmNames::AesCbcPkcs7()]. *)
Definition Sha256 : string := "SHA256".
Definition AesCbcPkcs7 : string := "AES_CBC_PKCS7".

Record HashAlgorithmProvider : Type := { HashAlgorithmName : string }.

Definition HashAlgorithmProvider_OpenAlgorithm (name : string)
  : Outcome HashAlgorithmProvider :=
  if String.eqb name Sha256 then Ret {| HashAlgorithmName := name |}
  else Throw (hresult_error E_INVALIDARG).

Definition HashData (p : HashAlgorithmProvider) (data : IBuffer) : Outcome IBuffer :=
  match data with
  | None => Throw (hresult_error E_POINTER)
  | Some d => Ret (Some (SHA256.sha256 d))
  end.

Record SymmetricKeyAlgorithmProvider : Type := { AlgorithmName : string }.

Definition SymmetricKeyAlgorithmProvider_OpenAlgorithm (name : string)
  : Outcome SymmetricKeyAlgorithmProvider :=
  if String.eqb name AesCbcPkcs7 then Ret {| AlgorithmName := name |}
  else Throw (hresult_error E_INVALIDARG).

Record CryptographicKey : Type := { KeyMaterial : bytes }.

(** AES keys have 128, 192 or 256 bits. *)
Definition valid_key_length (n : nat) : bool :=
  ((n =? 16) || (n =? 24) || (n =? 32))%nat.

Definition CreateSymmetricKey (p : SymmetricKeyAlgorithmProvider)
  (keyMaterial : IBuffer) : Outcome CryptographicKey :=
  match keyMaterial with
  | None => Throw (hresult_error E_POINTER)
  | Some k =>
      if valid_key_length (List.length k) then Ret {| KeyMaterial := k |}
      else Throw (hresult_error E_INVALIDARG)
  end.

(** [CryptographicEngine::Encrypt] for a key of [AesCbcPkcs7]: CBC over
    the padded data, chained from the vector the engine takes from [iv]. *)
Definition Encrypt (Pf : Platform) (key : CryptographicKey) (data iv : IBuffer)
  : Outcome IBuffer :=
  match data, engine_vector Pf iv with
  | Some d, Some v => Ret (Some (CBC.encrypt (KeyMaterial key) v d))
  | None, _ => Throw (hresult_error E_POINTER)
  | _, None => Throw (hresult_error E_INVALIDARG)
  end.

(** [CryptographicEngine::Decrypt]: the data must be a positive number
    of whole blocks and end in valid padding. *)
Definition Decrypt (Pf : Platform) (key : CryptographicKey) (data iv : IBuffer)
  : Outcome IBuffer :=
  match data, engine_vector Pf iv with
  | Some d, Some v =>
      if ((List.length d mod AES.BlockLength =? 0) && negb (List.length d =? 0))%nat
      then match CBC.decrypt (KeyMaterial key) v d with
           | Some p => Ret (Some p)
           | None => Throw (hresult_error NTE_BAD_DATA)
           end
      else Throw (hresult_error NTE_BAD_DATA)
  | None, _ => Throw (hresult_error E_POINTER)
  | _, None => Throw (hresult_error E_INVALIDARG)
  end.

(** ** The process: host state and standard output *)

Record Process (W : Type) : Type := {
  world : W;
  cout : list string
}.

(** Native code: a function of the process that returns, throws or
    crashes, and leaves a process behind. *)
Definition M (W A : Type) : Type := Process W -> Outcome A * Process W.

Definition ret {W A} (a : A) : M W A := fun p => (Ret a, p).

Definition throw {W A} (e : exn) : M W A := fun p => (Throw e, p).

Definition bind {W A B} (m : M W A) (k : A -> M W B) : M W B :=
  fun p =>
    match m p with
    | (Ret a, p') => k a p'
    | (Throw e, p') => (Throw e, p')
    | (NullDeref, p') => (NullDeref, p')
    end.

Declare Scope native_scope.
Delimit Scope native_scope with native.
Notation "x <- m ;; k" := (bind m (fun x => k))
  (at level 61, m at next level, right associativity) : native_scope.
Notation "m ;; k" := (bind m (fun _ => k))
  (at level 61, right associativity) : native_scope.
Open Scope native_scope.

(** A pure library call that may throw. *)
Definition lift {W A} (o : Outcome A) : M W A := fun p => (o, p).

(** A call into the host. *)
Definition host {W A} (f : W -> Outcome A * W) : M W A :=
  fun p =>
    let (o, w) := f (world p) in
    (o, {| world := w; cout := cout p |}).

(** [std::cout << s << std::endl]. *)
Definition cout_line {W} (s : string) : M W unit :=
  fun p => (Ret tt, {| world := world p; cout := cout p ++ [s] |}).

(** [try { m } catch (winrt::hresult_error const& ex) { h ex.message() }]. *)
Definition try_catch_hresult_error {W A} (m : M W A) (h : string -> M W A)
  : M W A :=
  fun p =>
    match m p with
    | (Throw (hresult_error message), p') => h message p'
    | r => r
    end.

(** [try { m } catch (const std::exception& e) { h e.what() }]. *)
Definition try_catch_std_exception {W A} (m : M W A) (h : string -> M W A)
  : M W A :=
  fun p =>
    match m p with
    | (Throw (std_exception what), p') => h what p'
    | r => r
    end.

(** ** JNI arrays *)

(** A [jbyteArray] is a reference: null, or an array of bytes.  A byte is
    its eight bits; [reinterpret_cast] between [jbyte] and [uint8_t]
    leaves them as they are. *)
Definition jbyteArray : Type := option bytes.

Definition GetArrayLength (array : bytes) : nat := List.length array.

(** Copies [len] elements from index [start] of [array] over the head of
    [buf]. *)
Definition GetByteArrayRegion (array : bytes) (start len : nat) (buf : bytes)
  : bytes :=
  firstn len (skipn start array) ++ skipn len buf.

Definition NewByteArray (len : nat) : jbyteArray := Some (repeat x00 len).

(** Copies [len] elements of [buf] into [array] from index [start]. *)
Definition SetByteArrayRegion (array : jbyteArray) (start len : nat) (buf : bytes)
  : jbyteArray :=
  match array with
  | None => None
  | Some a => Some (firstn start a ++ firstn len buf ++ skipn (start + len) a)
  end.

(** ** The source file *)

Definition s_winHelloKeyName : string := "cryptomator_winhello".

Definition jbyteArrayToVector (array : jbyteArray) : bytes :=
  match array with
  | None => []
  | Some a =>
      let length := GetArrayLength a in
      let result := repeat x00 length in
      GetByteArrayRegion a 0 length result
  end.

Definition vectorToJbyteArray (vec : bytes) : jbyteArray :=
  let array := NewByteArray (List.length vec) in
  SetByteArrayRegion array 0 (List.length vec) vec.

Definition vectorToIBuffer (vec : bytes) : IBuffer :=
  let writer := {| written := [] |} in
  let writer := WriteBytes writer vec in
  DetachBuffer writer.

Definition is_null {A} (r : option A) : bool :=
  match r with None => true | Some _ => false end.

Definition iBufferToVector {W} (buffer : IBuffer) : M W bytes :=
  reader <- lift (FromBuffer buffer) ;;
  if is_null buffer || (UnconsumedBufferLength reader =? 0)%nat then ret []
  else ret (ReadBytes reader (UnconsumedBufferLength reader)).

Section Native.

Variable host_platform : Platform.

Definition native (A : Type) : Type := M (World host_platform) A.

(** Lines 71 to 84 of [deriveEncryptionKey]: sign the challenge with the
    credential of [result] and hash the signature. *)
Definition deriveEncryptionKey_sign (challengeBuffer : IBuffer) (key : bytes)
  (result : KeyCredentialRetrievalResult (KeyCredential host_platform))
  : native (bool * bytes) :=
  signature <-
    match Credential result with
    | None => lift NullDeref
    | Some credential =>
        host (RequestSignAsync host_platform credential challengeBuffer)
    end ;;
  if negb (status_eqb (OpStatus signature) Success) then
    (if negb (status_eqb (OpStatus signature) UserCanceled) then
       cout_line "Failed to sign challenge using Windows Hello."
     else ret tt) ;;
    ret (false, key)
  else
    let response := Result signature in
    hashProvider <- lift (HashAlgorithmProvider_OpenAlgorithm Sha256) ;;
    hashBuffer <- lift (HashData hashProvider response) ;;
    key <- iBufferToVector hashBuffer ;;
    ret (true, key).

(** [bool deriveEncryptionKey(challenge, key&)]: the returned pair is
    the [bool] and the vector [key] as the call leaves it. *)
Definition deriveEncryptionKey (challenge key : bytes) : native (bool * bytes) :=
  let challengeBuffer := CreateFromByteArray challenge in
  try_catch_hresult_error
    (result <- host (RequestCreateAsync host_platform s_winHelloKeyName
                       FailIfExists) ;;
     if status_eqb (Status result) CredentialAlreadyExists then
       result <- host (OpenAsync host_platform s_winHelloKeyName) ;;
       deriveEncryptionKey_sign challengeBuffer key result
     else if negb (status_eqb (Status result) Success) then
       cout_line "Failed to create Windows Hello credential." ;;
       ret (false, key)
     else
       deriveEncryptionKey_sign challengeBuffer key result)
    (fun message =>
       cout_line message ;;
       ret (false, key)).

(** The [try] block of
    [Java_org_cryptomator_windows_keychain_WinHello_00024Native_setEncryptionKey]. *)
Definition setEncryptionKey_try (cleartext salt : jbyteArray)
  : native jbyteArray :=
  let cleartextVec := jbyteArrayToVector cleartext in
  let saltVec := jbyteArrayToVector salt in
  host (init_apartment host_platform) ;;
  let key := [] in
  r <- deriveEncryptionKey saltVec key ;;
  let '(ok, key) := r in
  if negb ok then
    throw (std_exception "Failed to generate the encryption key.")
  else
    let algorithmName := AesCbcPkcs7 in
    aesProvider <- lift (SymmetricKeyAlgorithmProvider_OpenAlgorithm algorithmName) ;;
    let keyMaterial := CreateFromByteArray key in
    aesKey <- lift (CreateSymmetricKey aesProvider keyMaterial) ;;
    let dataBuffer := CreateFromByteArray cleartextVec in
    encryptedBuffer <- lift (Encrypt host_platform aesKey dataBuffer keyMaterial) ;;
    encrypted <- iBufferToVector encryptedBuffer ;;
    ret (vectorToJbyteArray encrypted).

(** The [catch] block of both entry points. *)
Definition catch_block (what : string) : native jbyteArray :=
  cout_line ("Error: " ++ what) ;;
  let byteArray := NewByteArray 0 in
  ret byteArray.

(** Encrypts [cleartext] under the key derived from the signed [salt]. *)
Definition Java_org_cryptomator_windows_keychain_WinHello_00024Native_setEncryptionKey
  (cleartext salt : jbyteArray) : native jbyteArray :=
  try_catch_std_exception (setEncryptionKey_try cleartext salt) catch_block.

(** The [try] block of
    [Java_org_cryptomator_windows_keychain_WinHello_00024Native_getEncryptionKey]. *)
Definition getEncryptionKey_try (ciphertext salt : jbyteArray)
  : native jbyteArray :=
  let ciphertextVec := jbyteArrayToVector ciphertext in
  let saltVec := jbyteArrayToVector salt in
  host (init_apartment host_platform) ;;
  let key := [] in
  r <- deriveEncryptionKey saltVec key ;;
  let '(ok, key) := r in
  if negb ok then
    throw (std_exception "Failed to generate the encryption key.")
  else
    let algorithmName := AesCbcPkcs7 in
    aesProvider <- lift (SymmetricKeyAlgorithmProvider_OpenAlgorithm algorithmName) ;;
    let keyMaterial := CreateFromByteArray key in
    aesKey <- lift (CreateSymmetricKey aesProvider keyMaterial) ;;
    let dataBuffer := CreateFromByteArray ciphertextVec in
    decryptedBuffer <- lift (Decrypt host_platform aesKey dataBuffer keyMaterial) ;;
    decrypted <- iBufferToVector decryptedBuffer ;;
    ret (vectorToJbyteArray decrypted).

(** Decrypts [ciphertext] under the key derived from the signed [salt]. *)
Definition Java_org_cryptomator_windows_keychain_WinHello_00024Native_getEncryptionKey
  (ciphertext salt : jbyteArray) : native jbyteArray :=
  try_catch_std_exception (getEncryptionKey_try ciphertext salt) catch_block.

End Native.

(** The entry points by their Java names, [WinHello.Native.setEncryptionKey]
    and [WinHello.Native.getEncryptionKey]. *)
Abbreviation setEncryptionKey :=
  Java_org_cryptomator_windows_keychain_WinHello_00024Native_setEncryptionKey.
Abbreviation getEncryptionKey :=
  Java_org_cryptomator_windows_keychain_WinHello_00024Native_getEncryptionKey.

(** ** Hosts *)

(** *** A host that records the calls it receives *)

Inductive HostCall : Type :=
| Call_init_apartment
| Call_RequestCreateAsync (name : string) (option : KeyCredentialCreationOption)
| Call_OpenAsync (name : string)
| Call_RequestSignAsync (data : IBuffer).

Definition recorded {A W} (c : HostCall) (f : W -> Outcome A * W)
  : W * list HostCall -> Outcome A * (W * list HostCall) :=
  fun s =>
    let (o, w) := f (fst s) in
    (o, (w, snd s ++ [c])).

(** [Recording Pf] answers as [Pf] does and keeps the list of the calls. *)
Definition Recording (Pf : Platform) : Platform := {|
  World := World Pf * list HostCall;
  KeyCredential := KeyCredential Pf;
  init_apartment := recorded Call_init_apartment (init_apartment Pf);
  RequestCreateAsync := fun name option =>
    recorded (Call_RequestCreateAsync name option)
      (RequestCreateAsync Pf name option);
  OpenAsync := fun name => recorded (Call_OpenAsync name) (OpenAsync Pf name);
  RequestSignAsync := fun credential data =>
    recorded (Call_RequestSignAsync data) (RequestSignAsync Pf credential data);
  engine_vector := engine_vector Pf
|}.

(** *** An in-memory host with a scripted signer *)

Module Mock.

(** The credentials that exist, by name. *)
Definition MockWorld : Type := list string.

Definition exists_in (name : string) (w : MockWorld) : bool :=
  existsb (String.eqb name) w.

Record Script : Type := {
  (** What a creation request answers when no credential exists under
      the name: [Success] on a device with Windows Hello set up. *)
  creation_status : KeyCredentialStatus;
  (** What the signing prompt answers, by challenge. *)
  signer : bytes -> KeyCredentialOperationResult
}.

Definition retrieved (st : KeyCredentialStatus) (c : option string)
  : Outcome (KeyCredentialRetrievalResult string) :=
  Ret {| Status := st; Credential := c |}.

Definition create (s : Script) (name : string)
  (option : KeyCredentialCreationOption) (w : MockWorld)
  : Outcome (KeyCredentialRetrievalResult string) * MockWorld :=
  if exists_in name w then
    match option with
    | FailIfExists => (retrieved CredentialAlreadyExists None, w)
    | ReplaceExisting => (retrieved Success (Some name), w)
    end
  else if status_eqb (creation_status s) Success then
    (retrieved Success (Some name), name :: w)
  else (retrieved (creation_status s) None, w).

Definition open (name : string) (w : MockWorld)
  : Outcome (KeyCredentialRetrievalResult string) * MockWorld :=
  if exists_in name w then (retrieved Success (Some name), w)
  else (retrieved NotFound None, w).

Definition sign (s : Script) (credential : string) (data : IBuffer)
  (w : MockWorld) : Outcome KeyCredentialOperationResult * MockWorld :=
  match data with
  | None => (Throw (hresult_error E_POINTER), w)
  | Some challenge => (Ret (signer s challenge), w)
  end.

(** The engine of this host reads the vector from the head of the
    buffer: its first [BlockLength] bytes.  A missing or shorter buffer is
    refused. *)
Definition leading_block (iv : IBuffer) : option bytes :=
  match iv with
  | None => None
  | Some v =>
      if (AES.BlockLength <=? List.length v)%nat
      then Some (firstn AES.BlockLength v) else None
  end.

Definition platform (s : Script) : Platform := {|
  World := MockWorld;
  KeyCredential := string;
  init_apartment := fun w => (Ret tt, w);
  RequestCreateAsync := create s;
  OpenAsync := open;
  RequestSignAsync := sign s;
  engine_vector := leading_block
|}.

(** A signer that answers every challenge with one signature. *)
Definition fixed_signature (S : bytes) : Script := {|
  creation_status := Success;
  signer := fun _ => {| OpStatus := Success; Result := Some S |}
|}.

(** A signer whose signature holds the challenge: distinct challenges
    have distinct signatures. *)
Definition tagging_signer : Script := {|
  creation_status := Success;
  signer := fun challenge =>
    {| OpStatus := Success;
       Result := Some (bytes_of_string "signed:" ++ challenge) |}
|}.

(** A signer that answers every challenge with one status and no
    signature. *)
Definition refusing_signer (st : KeyCredentialStatus) : Script := {|
  creation_status := Success;
  signer := fun _ => {| OpStatus := st; Result := None |}
|}.

(** A device on which no credential can be created. *)
Definition no_hello (st : KeyCredentialStatus) : Script := {|
  creation_status := st;
  signer := fun _ => {| OpStatus := UnknownError; Result := None |}
|}.

(** A fresh process: no credential yet, nothing printed. *)
Definition fresh : Process MockWorld := {| world := []; cout := [] |}.

(** A process on a device where the credential exists already. *)
Definition enrolled : Process MockWorld :=
  {| world := [s_winHelloKeyName]; cout := [] |}.

End Mock.

(** *** What the properties assume of a host *)

(** The host lets the thread enter an apartment, provides the credential
    (created, or opened when it exists) and answers the signing request for
    a challenge with [answer challenge], whatever its state; its cipher
    engine accepts a buffer of 32 bytes as initialization vector. *)
Record HostAnswers (Pf : Platform)
  (answer : bytes -> KeyCredentialOperationResult) : Prop := {
  apartment_entered :
    forall w, exists w', init_apartment Pf w = (Ret tt, w');
  credential_obtained :
    forall w, exists r w',
      RequestCreateAsync Pf s_winHelloKeyName FailIfExists w = (Ret r, w') /\
      ((Status r = Success /\ exists c, Credential r = Some c) \/
       (Status r = CredentialAlreadyExists /\
        exists r' w'' c,
          OpenAsync Pf s_winHelloKeyName w' = (Ret r', w'') /\
          Credential r' = Some c));
  challenge_signed :
    forall c challenge w, exists w',
      RequestSignAsync Pf c (Some challenge) w = (Ret (answer challenge), w');
  vector_accepted :
    forall k : bytes, List.length k = 32%nat ->
      exists v, engine_vector Pf (Some k) = Some v
}.

(** The vector the engine of [Pf] takes from the key [k] when [k] is the
    buffer handed to it as vector (nothing when it refuses [k]). *)
Definition key_vector (Pf : Platform) (k : bytes) : bytes :=
  match engine_vector Pf (Some k) with
  | Some v => v
  | None => []
  end.

(** What a run prints when the signing request is refused with status
    [st]: the line of [deriveEncryptionKey], unless the user cancelled. *)
Definition sign_diagnostic (st : KeyCredentialStatus) : list string :=
  if status_eqb st UserCanceled then []
  else ["Failed to sign challenge using Windows Hello."%string].

(** The line both entry points print when no key was derived. *)
Definition key_failure : string :=
  "Error: Failed to generate the encryption key.".

(** The signing step as a fixed function of the challenge. *)
Definition signs_with (sign : bytes -> bytes) (challenge : bytes)
  : KeyCredentialOperationResult :=
  {| OpStatus := Success; Result := Some (sign challenge) |}.

(** ** Concrete inputs *)

(** Section 8 of the design: 32 zero bytes, the challenge 00 .. 0f and a
    fixed signature of 64 bytes. *)
Definition P_zero32 : bytes := repeat x00 32.
Definition C_0_to_f : bytes := hex "000102030405060708090a0b0c0d0e0f".
Definition S_fixed64 : bytes :=
  hex "a1a2a3a4a5a6a7a8a9aaabacadaeafb0b1b2b3b4b5b6b7b8b9babbbcbdbebfc0c1c2c3c4c5c6c7c8c9cacbcccdcecfd0d1d2d3d4d5d6d7d8d9dadbdcdddedfe0".

(** The host of that scenario: the signer answers with the fixed signature. *)
Definition scenario : Platform := Mock.platform (Mock.fixed_signature S_fixed64).

(** A host whose signatures differ from challenge to challenge. *)
Definition tagging_host : Platform := Mock.platform Mock.tagging_signer.

Definition master_key : bytes := bytes_of_string "master key".
Definition salt_0 : bytes := bytes_of_string "salt-0".
Definition salt_K : bytes := bytes_of_string "salt-K".

(** ** Reading a record of calls *)

Definition is_sign_request (c : HostCall) : bool :=
  match c with
  | Call_RequestSignAsync _ => true
  | _ => false
  end.

(** The signing requests among the calls, in order. *)
Definition sign_requests (calls : list HostCall) : list HostCall :=
  filter is_sign_request calls.

(** An outcome that is a [std::exception] in flight. *)
Definition throws_std_exception {A} (o : Outcome A) : bool :=
  match o with
  | Throw (std_exception _) => true
  | _ => false
  end.

(** Native code that neither changes the process nor throws a
    [std::exception]: the calls into the hashing and cipher libraries. *)
Definition library_call {W A} (m : M W A) : Prop :=
  forall p, snd (m p) = p /\ throws_std_exception (fst (m p)) = false.

(** A device on which the credential exists and cannot be opened: the
    creation request answers [CredentialAlreadyExists], the opening
    answers with the status [st] and no credential. *)
Definition unopenable (st : KeyCredentialStatus) : Platform := {|
  World := unit;
  KeyCredential := unit;
  init_apartment := fun w => (Ret tt, w);
  RequestCreateAsync := fun _ _ w =>
    (Ret {| Status := CredentialAlreadyExists; Credential := None |}, w);
  OpenAsync := fun _ w => (Ret {| Status := st; Credential := None |}, w);
  RequestSignAsync := fun _ _ w =>
    (Ret {| OpStatus := UnknownError; Result := None |}, w);
  engine_vector := Mock.leading_block
|}.

(** The calls into the host, by the place of the source that makes
    them: [init_apartment] in the entry points, the other three inside the
    [try] block of [deriveEncryptionKey]. *)
Inductive HostPlace : Type :=
| in_init_apartment
| in_RequestCreateAsync
| in_OpenAsync
| in_RequestSignAsync.

Definition place_eqb (a b : HostPlace) : bool :=
  match a, b with
  | in_init_apartment, in_init_apartment
  | in_RequestCreateAsync, in_RequestCreateAsync
  | in_OpenAsync, in_OpenAsync
  | in_RequestSignAsync, in_RequestSignAsync => true
  | _, _ => false
  end.

(** A device on which the credential exists and the call at [place]
    throws a [winrt::hresult_error] with the given message; the calls
    before it answer as on a working device. *)
Definition throwing_at (place : HostPlace) (message : string) : Platform :=
  let answer {A} (here : HostPlace) (a : A) : Outcome A :=
    if place_eqb place here then Throw (hresult_error message) else Ret a in
  {|
    World := unit;
    KeyCredential := unit;
    init_apartment := fun w => (answer in_init_apartment tt, w);
    RequestCreateAsync := fun _ _ w =>
      (answer in_RequestCreateAsync
         {| Status := CredentialAlreadyExists; Credential := None |}, w);
    OpenAsync := fun _ w =>
      (answer in_OpenAsync {| Status := Success; Credential := Some tt |}, w);
    RequestSignAsync := fun _ data w =>
      (answer in_RequestSignAsync {| OpStatus := Success; Result := data |}, w);
    engine_vector := Mock.leading_block
  |}.

(** The part the [try] blocks of both entry points share: enter the
    apartment, derive the key from the salt, throw when that fails, and
    go on with the key. *)
Definition with_derived_key (Pf : Platform) (salt : jbyteArray)
  (tail : bytes -> M (World Pf) jbyteArray) : M (World Pf) jbyteArray :=
  let saltVec := jbyteArrayToVector salt in
  host (init_apartment Pf) ;;
  let key := [] in
  r <- deriveEncryptionKey Pf saltVec key ;;
  let '(ok, key) := r in
  if negb ok then
    throw (std_exception "Failed to generate the encryption key.")
  else tail key.

(** What [setEncryptionKey] does with the key. *)
Definition encrypt_with (Pf : Platform) (cleartext : jbyteArray) (key : bytes)
  : M (World Pf) jbyteArray :=
  aesProvider <- lift (SymmetricKeyAlgorithmProvider_OpenAlgorithm AesCbcPkcs7) ;;
  aesKey <- lift (CreateSymmetricKey aesProvider (CreateFromByteArray key)) ;;
  encryptedBuffer <-
    lift (Encrypt Pf aesKey (CreateFromByteArray (jbyteArrayToVector cleartext))
            (CreateFromByteArray key)) ;;
  encrypted <- iBufferToVector encryptedBuffer ;;
  ret (vectorToJbyteArray encrypted).

(** What [getEncryptionKey] does with the key. *)
Definition decrypt_with (Pf : Platform) (ciphertext : jbyteArray) (key : bytes)
  : M (World Pf) jbyteArray :=
  aesProvider <- lift (SymmetricKeyAlgorithmProvider_OpenAlgorithm AesCbcPkcs7) ;;
  aesKey <- lift (CreateSymmetricKey aesProvider (CreateFromByteArray key)) ;;
  decryptedBuffer <-
    lift (Decrypt Pf aesKey (CreateFromByteArray (jbyteArrayToVector ciphertext))
            (CreateFromByteArray key)) ;;
  decrypted <- iBufferToVector decryptedBuffer ;;
  ret (vectorToJbyteArray decrypted).
(** * Properties *)

Unset Implicit Arguments.

(** Every property of a single byte can be checked on its eight bits. *)
Lemma byte_bits_ind (P : byte -> Prop) :
  (forall x : bits8, P (of_bits x)) -> forall b, P b.
Proof.
  intros H b. rewrite <- (of_bits_to_bits b). apply H.
Qed.

(** FIPS 197, appendices B, C.1, C.2 and C.3. *)
Example fips197_B :
  aes_block "2b7e151628aed2a6abf7158809cf4f3c" "3243f6a8885a308d313198a2e0370734"
  = hex "3925841d02dc09fbdc118597196a0b32".
Proof. vm_compute. reflexivity. Qed.

Example fips197_C1 :
  aes_block "000102030405060708090a0b0c0d0e0f" "00112233445566778899aabbccddeeff"
  = hex "69c4e0d86a7b0430d8cdb78070b4c55a".
Proof. vm_compute. reflexivity. Qed.

Example fips197_C2 :
  aes_block "000102030405060708090a0b0c0d0e0f1011121314151617"
    "00112233445566778899aabbccddeeff"
  = hex "dda97ca4864cdfe06eaf70a0ec0d7191".
Proof. vm_compute. reflexivity. Qed.

Example fips197_C3 :
  aes_block "000102030405060708090a0b0c0d0e0f101112131415161718191a1b1c1d1e1f"
    "00112233445566778899aabbccddeeff"
  = hex "8ea2b7ca516745bfeafc49904b496089".
Proof. vm_compute. reflexivity. Qed.

Example fips197_C3_inv :
  aes_inv_block "000102030405060708090a0b0c0d0e0f101112131415161718191a1b1c1d1e1f"
    "8ea2b7ca516745bfeafc49904b496089"
  = hex "00112233445566778899aabbccddeeff".
Proof. vm_compute. reflexivity. Qed.

Example sbox_00 : AES.sbox x00 = x63. Proof. reflexivity. Qed.
Example sbox_53 : AES.sbox x53 = xed. Proof. reflexivity. Qed.
Example inv_sbox_ed : AES.inv_sbox xed = x53. Proof. reflexivity. Qed.
Example gmul_57_83 : GF256.gmul x57 x83 = xc1. Proof. reflexivity. Qed.

(** ** AES: the inverse cipher undoes the cipher *)

Module AESFacts.
Import GF256 AES.

Ltac bits_of a :=
  pattern a; apply byte_bits_ind; clear a; intros (?&?&?&?&?&?&?&?).

Ltac all_bits := repeat match goal with a : byte |- _ => bits_of a end.

Lemma of_bits_ext (a0 a1 a2 a3 a4 a5 a6 a7 b0 b1 b2 b3 b4 b5 b6 b7 : bool) :
  a0 = b0 -> a1 = b1 -> a2 = b2 -> a3 = b3 ->
  a4 = b4 -> a5 = b5 -> a6 = b6 -> a7 = b7 ->
  of_bits (a0, (a1, (a2, (a3, (a4, (a5, (a6, a7)))))))
  = of_bits (b0, (b1, (b2, (b3, (b4, (b5, (b6, b7))))))).
Proof. intros; subst; reflexivity. Qed.

(** An identity between bytes built from [bxor] and [gmul] by constants
    is eight identities between xor-polynomials in the bits. *)
Ltac gf_bits :=
  intros; all_bits;
  cbv [bxor xtime gmul x4];
  rewrite ?to_bits_of_bits;
  cbv beta iota zeta delta [to_bits mul8 xor8 xtime8 scale8];
  apply of_bits_ext; btauto.

Lemma bxor_cancel a k : bxor (bxor a k) k = a.
Proof. gf_bits. Qed.

Lemma bxor_comm a b : bxor a b = bxor b a.
Proof. gf_bits. Qed.

Lemma inv_sbox_sbox b : inv_sbox (sbox b) = b.
Proof. destruct b; reflexivity. Qed.

Lemma wxor_cancel a k : wxor (wxor a k) k = a.
Proof.
  destruct a as [[[a0 a1] a2] a3], k as [[[k0 k1] k2] k3]; cbv [wxor].
  now rewrite !bxor_cancel.
Qed.

Lemma sxor_cancel a k : sxor (sxor a k) k = a.
Proof.
  destruct a as [[[a0 a1] a2] a3], k as [[[k0 k1] k2] k3]; cbv [sxor].
  now rewrite !wxor_cancel.
Qed.

Lemma AddRoundKey_involutive rk s : AddRoundKey rk (AddRoundKey rk s) = s.
Proof. apply sxor_cancel. Qed.

Lemma InvSubBytes_SubBytes s : InvSubBytes (SubBytes s) = s.
Proof.
  destruct s as [[[[[[? ?] ?] ?] [[[? ?] ?] ?]] [[[? ?] ?] ?]] [[[? ?] ?] ?]].
  cbv [InvSubBytes SubBytes smap wmap]. now rewrite !inv_sbox_sbox.
Qed.

Lemma InvShiftRows_ShiftRows s : InvShiftRows (ShiftRows s) = s.
Proof.
  destruct s as [[[[[[? ?] ?] ?] [[[? ?] ?] ?]] [[[? ?] ?] ?]] [[[? ?] ?] ?]].
  reflexivity.
Qed.

(** The four rows of the product of the two circulant matrices
    (0e 0b 0d 09) and (02 03 01 01) over GF(2^8): the identity. *)
Lemma inv_mix_row0 a0 a1 a2 a3 :
  x4 (gmul (x4 (gmul a0 x02) (gmul a1 x03) a2 a3) x0e)
     (gmul (x4 a0 (gmul a1 x02) (gmul a2 x03) a3) x0b)
     (gmul (x4 a0 a1 (gmul a2 x02) (gmul a3 x03)) x0d)
     (gmul (x4 (gmul a0 x03) a1 a2 (gmul a3 x02)) x09) = a0.
Proof. gf_bits. Qed.

Lemma inv_mix_row1 a0 a1 a2 a3 :
  x4 (gmul (x4 (gmul a0 x02) (gmul a1 x03) a2 a3) x09)
     (gmul (x4 a0 (gmul a1 x02) (gmul a2 x03) a3) x0e)
     (gmul (x4 a0 a1 (gmul a2 x02) (gmul a3 x03)) x0b)
     (gmul (x4 (gmul a0 x03) a1 a2 (gmul a3 x02)) x0d) = a1.
Proof. gf_bits. Qed.

Lemma inv_mix_row2 a0 a1 a2 a3 :
  x4 (gmul (x4 (gmul a0 x02) (gmul a1 x03) a2 a3) x0d)
     (gmul (x4 a0 (gmul a1 x02) (gmul a2 x03) a3) x09)
     (gmul (x4 a0 a1 (gmul a2 x02) (gmul a3 x03)) x0e)
     (gmul (x4 (gmul a0 x03) a1 a2 (gmul a3 x02)) x0b) = a2.
Proof. gf_bits. Qed.

Lemma inv_mix_row3 a0 a1 a2 a3 :
  x4 (gmul (x4 (gmul a0 x02) (gmul a1 x03) a2 a3) x0b)
     (gmul (x4 a0 (gmul a1 x02) (gmul a2 x03) a3) x0d)
     (gmul (x4 a0 a1 (gmul a2 x02) (gmul a3 x03)) x09)
     (gmul (x4 (gmul a0 x03) a1 a2 (gmul a3 x02)) x0e) = a3.
Proof. gf_bits. Qed.

Lemma inv_mix_column_mix_column w : inv_mix_column (mix_column w) = w.
Proof.
  destruct w as [[[a0 a1] a2] a3]. unfold mix_column, inv_mix_column.
  now rewrite inv_mix_row0, inv_mix_row1, inv_mix_row2, inv_mix_row3.
Qed.

Lemma InvMixColumns_MixColumns s : InvMixColumns (MixColumns s) = s.
Proof.
  destruct s as [[[c0 c1] c2] c3]. unfold MixColumns, InvMixColumns, smap.
  now rewrite !inv_mix_column_mix_column.
Qed.

Lemma InvRound_Round rk s : InvRound rk (Round rk s) = s.
Proof.
  unfold InvRound, Round.
  now rewrite AddRoundKey_involutive, InvMixColumns_MixColumns,
    InvShiftRows_ShiftRows, InvSubBytes_SubBytes.
Qed.

Lemma InvFinalRound_FinalRound rk s : InvFinalRound rk (FinalRound rk s) = s.
Proof.
  unfold InvFinalRound, FinalRound.
  now rewrite AddRoundKey_involutive, InvShiftRows_ShiftRows,
    InvSubBytes_SubBytes.
Qed.

Lemma rounds_undone mids : forall s,
  fold_right (fun rk st => InvRound rk st)
    (fold_left (fun st rk => Round rk st) mids s) mids = s.
Proof.
  induction mids as [|rk mids IH]; intros s; cbn; [reflexivity|].
  now rewrite IH, InvRound_Round.
Qed.

(** FIPS 197, section 5.3: for every key schedule, [InvCipher] is the
    inverse of [Cipher]. *)
Theorem InvCipher_Cipher rks s : InvCipher rks (Cipher rks s) = s.
Proof.
  destruct rks as [|k0 ks]; [reflexivity|]. unfold InvCipher, Cipher.
  now rewrite InvFinalRound_FinalRound, rounds_undone, AddRoundKey_involutive.
Qed.

Lemma bytes_of_state_length s : List.length (bytes_of_state s) = 16%nat.
Proof.
  destruct s as [[[[[[? ?] ?] ?] [[[? ?] ?] ?]] [[[? ?] ?] ?]] [[[? ?] ?] ?]].
  reflexivity.
Qed.

Lemma state_of_bytes_of_state s : state_of_bytes (bytes_of_state s) = s.
Proof.
  destruct s as [[[[[[? ?] ?] ?] [[[? ?] ?] ?]] [[[? ?] ?] ?]] [[[? ?] ?] ?]].
  reflexivity.
Qed.

Lemma bytes_of_state_of_bytes l :
  List.length l = 16%nat -> bytes_of_state (state_of_bytes l) = l.
Proof.
  intros H.
  do 16 (destruct l as [|? l]; [discriminate H|]).
  destruct l; [reflexivity|discriminate H].
Qed.

End AESFacts.

(** ** SHA-256: known answers and digest length *)

Example sha256_K0 : nth 0 SHA256.K 0%Z = 0x428a2f98%Z. Proof. reflexivity. Qed.
Example sha256_K63 : nth 63 SHA256.K 0%Z = 0xc67178f2%Z. Proof. reflexivity. Qed.
Example sha256_H0 : nth 0 SHA256.H0 0%Z = 0x6a09e667%Z. Proof. reflexivity. Qed.

Example sha256_empty :
  SHA256.sha256 []
  = hex "e3b0c44298fc1c149afbf4c8996fb92427ae41e4649b934ca495991b7852b855".
Proof. vm_compute. reflexivity. Qed.

Example sha256_abc :
  SHA256.sha256 (bytes_of_string "abc")
  = hex "ba7816bf8f01cfea414140de5dae2223b00361a396177a9cb410ff61f20015ad".
Proof. vm_compute. reflexivity. Qed.

Example sha256_two_blocks :
  SHA256.sha256
    (bytes_of_string "abcdbcdecdefdefgefghfghighijhijkijkljklmklmnlmnomnopnopq")
  = hex "248d6a61d20638b8e5c026930c3e6039a33ce45964ff2167f6ecedd419db06c1".
Proof. vm_compute. reflexivity. Qed.

(** NIST SP 800-38A, F.2.5 (CBC-AES256), followed by the block of padding. *)
Example cbc_aes256_sp800_38a :
  CBC.encrypt
    (hex "603deb1015ca71be2b73aef0857d77811f352c073b6108d72d9810a30914dff4")
    (hex "000102030405060708090a0b0c0d0e0f")
    (hex "6bc1bee22e409f96e93d7e117393172aae2d8a571e03ac9c9eb76fac45af8e51")
  = hex "f58c4c04d6e5f1ba779eabfb5f7bfbd69cfc4e967edb808d679f777bc6702c7d3a3aa5e0213db1a9901f9036cf5102d2".
Proof. vm_compute. reflexivity. Qed.

Lemma sha256_length msg : List.length (SHA256.sha256 msg) = 32%nat.
Proof.
  unfold SHA256.sha256.
  destruct (SHA256.process _ _ _) as [[[[[[[a b] c] d] e] f] g] h].
  reflexivity.
Qed.

(** ** CBC and PKCS#7: lengths and the round trip *)

Module CBCFacts.
Import AES CBC AESFacts.

Lemma bytes_of_blocks_length bs :
  List.length (bytes_of_blocks bs) = (16 * List.length bs)%nat.
Proof.
  induction bs as [|b bs IH]; [reflexivity|].
  unfold bytes_of_blocks in *; cbn [flat_map].
  rewrite length_app, bytes_of_state_length, IH. cbn [List.length]. lia.
Qed.

Lemma blocks_of_length n : forall l, List.length (blocks_of n l) = n.
Proof. induction n as [|n IH]; intros l; cbn; [reflexivity | now rewrite IH]. Qed.

Lemma encrypt_blocks_length rks ps : forall prev,
  List.length (encrypt_blocks rks prev ps) = List.length ps.
Proof. induction ps as [|p ps IH]; intros prev; cbn; [reflexivity | now rewrite IH]. Qed.

Lemma state_of_bytes_app s rest :
  state_of_bytes (bytes_of_state s ++ rest) = s.
Proof.
  destruct s as [[[[[[? ?] ?] ?] [[[? ?] ?] ?]] [[[? ?] ?] ?]] [[[? ?] ?] ?]].
  reflexivity.
Qed.

Lemma skipn_bytes_of_state s rest :
  skipn BlockLength (bytes_of_state s ++ rest) = rest.
Proof.
  destruct s as [[[[[[? ?] ?] ?] [[[? ?] ?] ?]] [[[? ?] ?] ?]] [[[? ?] ?] ?]].
  reflexivity.
Qed.

Lemma blocks_of_bytes_of_blocks bs :
  blocks_of (List.length bs) (bytes_of_blocks bs) = bs.
Proof.
  induction bs as [|b bs IH]; [reflexivity|].
  cbn [List.length blocks_of]. unfold bytes_of_blocks in *. cbn [flat_map].
  now rewrite state_of_bytes_app, skipn_bytes_of_state, IH.
Qed.

Lemma bytes_of_blocks_of n : forall l,
  List.length l = (16 * n)%nat -> bytes_of_blocks (blocks_of n l) = l.
Proof.
  induction n as [|n IH]; intros l H.
  - destruct l; [reflexivity | discriminate H].
  - do 16 (destruct l as [|? l]; [cbn in H; lia|]).
    cbn [blocks_of]. unfold bytes_of_blocks in *. cbn [flat_map].
    change (skipn BlockLength ?x) with (skipn 16 x). cbn [skipn].
    rewrite IH by (cbn in H; lia). reflexivity.
Qed.

Lemma decrypt_encrypt_blocks rks ps : forall prev,
  decrypt_blocks rks prev (encrypt_blocks rks prev ps) = ps.
Proof.
  induction ps as [|p ps IH]; intros prev; cbn; [reflexivity|].
  now rewrite InvCipher_Cipher, sxor_cancel, IH.
Qed.

Lemma to_nat_byte_of_nat n : (n <= 255)%nat -> Byte.to_nat (byte_of_nat n) = n.
Proof.
  intros H. unfold byte_of_nat, byte_of_Z.
  rewrite Z.mod_small by lia.
  rewrite Byte.of_N_via_nat, Znat.Z_N_nat, Nat2Z.id.
  destruct (Byte.of_nat n) as [b|] eqn:E.
  - now apply Byte.to_of_nat.
  - apply Byte.of_nat_None_iff in E. lia.
Qed.

Lemma pad_length_bounds data : (1 <= pad_length data <= 16)%nat.
Proof.
  unfold pad_length, BlockLength.
  pose proof (Nat.mod_upper_bound (List.length data) 16). lia.
Qed.

Lemma pkcs7_pad_length data :
  List.length (pkcs7_pad data) = (16 * (List.length data / 16 + 1))%nat.
Proof.
  unfold pkcs7_pad, pad_length. rewrite length_app, repeat_length.
  unfold BlockLength.
  pose proof (Nat.div_mod_eq (List.length data) 16).
  pose proof (Nat.mod_upper_bound (List.length data) 16). lia.
Qed.

Lemma last_app_repeat (v x : byte) n d :
  last (d ++ repeat v (S n)) x = v.
Proof.
  replace (repeat v (S n)) with (repeat v n ++ [v]).
  - now rewrite app_assoc, last_last.
  - change [v] with (repeat v 1). rewrite <- repeat_app. f_equal. lia.
Qed.

Lemma forallb_eqb_repeat v n : forallb (Byte.eqb v) (repeat v n) = true.
Proof.
  induction n as [|n IH]; cbn; [reflexivity|].
  now rewrite IH, (Byte.byte_dec_lb (eq_refl v)).
Qed.

Theorem pkcs7_unpad_pad data : pkcs7_unpad (pkcs7_pad data) = Some data.
Proof.
  pose proof (pad_length_bounds data) as Hn.
  unfold pkcs7_unpad, pkcs7_pad.
  set (n := pad_length data) in *.
  destruct n as [|m] eqn:En; [lia|].
  rewrite last_app_repeat, to_nat_byte_of_nat by lia.
  rewrite length_app, repeat_length.
  replace (List.length data + S m - S m)%nat with (List.length data) by lia.
  rewrite skipn_app, skipn_all, Nat.sub_diag, firstn_app, firstn_all, Nat.sub_diag.
  cbn [skipn firstn app]. rewrite app_nil_r, forallb_eqb_repeat.
  unfold BlockLength.
  replace (1 <=? S m)%nat with true by (symmetry; apply Nat.leb_le; lia).
  replace (S m <=? 16)%nat with true by (symmetry; apply Nat.leb_le; lia).
  replace (S m <=? List.length data + S m)%nat with true
    by (symmetry; apply Nat.leb_le; lia).
  reflexivity.
Qed.

Lemma div16_mul n : (16 * n / 16)%nat = n.
Proof. rewrite Nat.mul_comm. apply Nat.div_mul. discriminate. Qed.

Lemma encrypt_length key iv data :
  List.length (encrypt key iv data) = (16 * (List.length data / 16 + 1))%nat.
Proof.
  unfold encrypt.
  rewrite bytes_of_blocks_length, encrypt_blocks_length, blocks_of_length.
  rewrite pkcs7_pad_length. unfold BlockLength.
  now rewrite div16_mul.
Qed.

(** Decryption under the key and vector of the encryption returns the data. *)
Theorem decrypt_encrypt key iv data :
  decrypt key iv (encrypt key iv data) = Some data.
Proof.
  unfold decrypt.
  rewrite encrypt_length. unfold BlockLength. rewrite div16_mul.
  unfold encrypt.
  rewrite pkcs7_pad_length. unfold BlockLength. rewrite div16_mul.
  set (n := (List.length data / 16 + 1)%nat).
  set (ps := blocks_of n (pkcs7_pad data)).
  replace n with (List.length (encrypt_blocks (key_schedule key) (state_of_bytes iv) ps))
    at 1 by (rewrite encrypt_blocks_length; apply blocks_of_length).
  rewrite blocks_of_bytes_of_blocks, decrypt_encrypt_blocks.
  unfold ps. rewrite bytes_of_blocks_of by (rewrite pkcs7_pad_length; reflexivity).
  apply pkcs7_unpad_pad.
Qed.

End CBCFacts.

(** ** The conversion helpers *)

Lemma jbyteArrayToVector_Some a : jbyteArrayToVector (Some a) = a.
Proof.
  unfold jbyteArrayToVector, GetByteArrayRegion, GetArrayLength. cbn [skipn].
  rewrite firstn_all, skipn_all2 by (rewrite repeat_length; lia).
  apply app_nil_r.
Qed.

Lemma vectorToJbyteArray_Some v : vectorToJbyteArray v = Some v.
Proof.
  unfold vectorToJbyteArray, NewByteArray, SetByteArrayRegion.
  cbn [firstn Nat.add app].
  rewrite firstn_all, skipn_all2 by (rewrite repeat_length; lia).
  now rewrite app_nil_r.
Qed.

Lemma iBufferToVector_Some W (b : bytes) (p : Process W) :
  iBufferToVector (Some b) p = (Ret b, p).
Proof.
  unfold iBufferToVector, bind, lift, FromBuffer, ret, is_null,
    UnconsumedBufferLength, ReadBytes.
  cbn [unconsumed orb].
  destruct b as [|x b]; [reflexivity|].
  now rewrite firstn_all.
Qed.

(** ** The cipher engine *)

Lemma CreateSymmetricKey_32 p (k : bytes) :
  List.length k = 32%nat ->
  CreateSymmetricKey p (Some k) = Ret {| KeyMaterial := k |}.
Proof. intros H. unfold CreateSymmetricKey. now rewrite H. Qed.

Lemma Encrypt_with_key_as_iv Pf (k v d : bytes) :
  engine_vector Pf (Some k) = Some v ->
  Encrypt Pf {| KeyMaterial := k |} (Some d) (Some k)
  = Ret (Some (CBC.encrypt k v d)).
Proof. intros H. unfold Encrypt. now rewrite H. Qed.

Lemma Decrypt_with_key_as_iv Pf (k v d : bytes) :
  engine_vector Pf (Some k) = Some v ->
  Decrypt Pf {| KeyMaterial := k |} (Some d) (Some k)
  = if ((List.length d mod 16 =? 0) && negb (List.length d =? 0))%nat
    then match CBC.decrypt k v d with
         | Some x => Ret (Some x)
         | None => Throw (hresult_error NTE_BAD_DATA)
         end
    else Throw (hresult_error NTE_BAD_DATA).
Proof. intros H. unfold Decrypt. now rewrite H. Qed.

Lemma envelope_whole_blocks k iv d :
  ((List.length (CBC.encrypt k iv d) mod 16 =? 0)
   && negb (List.length (CBC.encrypt k iv d) =? 0))%nat = true.
Proof.
  rewrite CBCFacts.encrypt_length.
  rewrite Nat.mul_comm, Nat.Div0.mod_mul. cbn [Nat.eqb andb].
  destruct (_ * 16)%nat eqn:E; [lia | reflexivity].
Qed.

(** The engine's [Decrypt] undoes its [Encrypt], when both are handed the
    key as vector. *)
Theorem Decrypt_Encrypt Pf (k v d : bytes) :
  engine_vector Pf (Some k) = Some v ->
  Decrypt Pf {| KeyMaterial := k |} (Some (CBC.encrypt k v d)) (Some k)
  = Ret (Some d).
Proof.
  intros H. rewrite (Decrypt_with_key_as_iv Pf k v) by assumption.
  now rewrite envelope_whole_blocks, CBCFacts.decrypt_encrypt.
Qed.

(** ** Running native code *)

Lemma bind_Ret W A B (m : M W A) (k : A -> M W B) p a p' :
  m p = (Ret a, p') -> bind m k p = k a p'.
Proof. intros H. unfold bind. now rewrite H. Qed.

Lemma bind_Throw W A B (m : M W A) (k : A -> M W B) p e p' :
  m p = (Throw e, p') -> bind m k p = (Throw e, p').
Proof. intros H. unfold bind. now rewrite H. Qed.

Lemma host_Ret W A (f : W -> Outcome A * W) p a w' :
  f (world p) = (Ret a, w') ->
  host f p = (Ret a, {| world := w'; cout := cout p |}).
Proof. intros H. unfold host. now rewrite H. Qed.

Section UnderHostAnswers.

Variable Pf : Platform.
Variable answer : bytes -> KeyCredentialOperationResult.
Hypothesis Hhost : HostAnswers Pf answer.

Lemma key_vector_accepted (k : bytes) :
  List.length k = 32%nat -> engine_vector Pf (Some k) = Some (key_vector Pf k).
Proof.
  intros H. destruct (vector_accepted Hhost k H) as (v & Hv).
  unfold key_vector. rewrite Hv. reflexivity.
Qed.

(** The part of [deriveEncryptionKey] after the credential is there. *)
Lemma sign_signed challenge key r c S p :
  Credential r = Some c ->
  answer challenge = {| OpStatus := Success; Result := Some S |} ->
  exists w',
    deriveEncryptionKey_sign Pf (Some challenge) key r p
    = (Ret (true, SHA256.sha256 S), {| world := w'; cout := cout p |}).
Proof.
  intros Hc Ha.
  destruct (challenge_signed Hhost c challenge (world p)) as (w' & Hs).
  exists w'. unfold deriveEncryptionKey_sign. rewrite Hc.
  erewrite bind_Ret by (apply host_Ret, Hs).
  rewrite Ha. cbn [OpStatus Result status_eqb negb].
  unfold HashAlgorithmProvider_OpenAlgorithm. cbn [String.eqb Sha256].
  change (String.eqb _ _) with true. cbv iota.
  erewrite bind_Ret by reflexivity.
  erewrite bind_Ret by reflexivity.
  erewrite bind_Ret by apply iBufferToVector_Some.
  reflexivity.
Qed.

Lemma sign_refused challenge key r c p :
  Credential r = Some c ->
  OpStatus (answer challenge) <> Success ->
  exists w',
    deriveEncryptionKey_sign Pf (Some challenge) key r p
    = (Ret (false, key),
       {| world := w';
          cout := cout p ++ sign_diagnostic (OpStatus (answer challenge)) |}).
Proof.
  intros Hc Ha.
  destruct (challenge_signed Hhost c challenge (world p)) as (w' & Hs).
  exists w'. unfold deriveEncryptionKey_sign. rewrite Hc.
  erewrite bind_Ret by (apply host_Ret, Hs).
  unfold sign_diagnostic.
  destruct (OpStatus (answer challenge)); try congruence; cbn;
    rewrite ?app_nil_r; reflexivity.
Qed.

(** The credential is obtained, and the rest of the [try] block of
    [deriveEncryptionKey] runs on it. *)
Lemma derive_obtains challenge key p :
  exists r c w1,
    Credential r = Some c /\
    deriveEncryptionKey Pf challenge key p
    = try_catch_hresult_error
        (deriveEncryptionKey_sign Pf (Some challenge) key r)
        (fun message => cout_line message ;; ret (false, key))
        {| world := w1; cout := cout p |}.
Proof.
  destruct (credential_obtained Hhost (world p))
    as (r & w1 & Hc & [[Hs (c & Hcred)] | [Hs (r' & w2 & c & Ho & Hcred)]]).
  - exists r, c, w1. split; [assumption|].
    unfold deriveEncryptionKey, try_catch_hresult_error.
    erewrite bind_Ret by (apply host_Ret, Hc).
    rewrite Hs. reflexivity.
  - exists r', c, w2. split; [assumption|].
    unfold deriveEncryptionKey, try_catch_hresult_error.
    erewrite bind_Ret by (apply host_Ret, Hc).
    rewrite Hs. cbn [status_eqb].
    erewrite bind_Ret by (apply host_Ret, Ho).
    reflexivity.
Qed.

Lemma derive_signed challenge key S p :
  answer challenge = {| OpStatus := Success; Result := Some S |} ->
  exists w',
    deriveEncryptionKey Pf challenge key p
    = (Ret (true, SHA256.sha256 S), {| world := w'; cout := cout p |}).
Proof.
  intros Ha.
  destruct (derive_obtains challenge key p) as (r & c & w1 & Hc & ->).
  destruct (sign_signed challenge key r c S {| world := w1; cout := cout p |} Hc Ha)
    as (w' & Hs).
  exists w'. unfold try_catch_hresult_error. now rewrite Hs.
Qed.

Lemma derive_refused challenge key p :
  OpStatus (answer challenge) <> Success ->
  exists w',
    deriveEncryptionKey Pf challenge key p
    = (Ret (false, key),
       {| world := w';
          cout := cout p ++ sign_diagnostic (OpStatus (answer challenge)) |}).
Proof.
  intros Ha.
  destruct (derive_obtains challenge key p) as (r & c & w1 & Hc & ->).
  destruct (sign_refused challenge key r c {| world := w1; cout := cout p |} Hc Ha)
    as (w' & Hs).
  exists w'. unfold try_catch_hresult_error. now rewrite Hs.
Qed.

Lemma set_refused data salt p :
  OpStatus (answer (jbyteArrayToVector salt)) <> Success ->
  exists w',
    setEncryptionKey Pf data salt p
    = (Ret (Some []),
       {| world := w';
          cout := cout p
                  ++ sign_diagnostic (OpStatus (answer (jbyteArrayToVector salt)))
                  ++ [key_failure] |}).
Proof.
  intros Ha.
  destruct (apartment_entered Hhost (world p)) as (w0 & H0).
  destruct (derive_refused (jbyteArrayToVector salt) []
              {| world := w0; cout := cout p |} Ha) as (w' & Hd).
  exists w'. unfold setEncryptionKey, try_catch_std_exception, setEncryptionKey_try.
  erewrite bind_Ret by (apply host_Ret, H0).
  erewrite bind_Ret by apply Hd.
  cbn. now rewrite <- app_assoc.
Qed.

Lemma get_refused data salt p :
  OpStatus (answer (jbyteArrayToVector salt)) <> Success ->
  exists w',
    getEncryptionKey Pf data salt p
    = (Ret (Some []),
       {| world := w';
          cout := cout p
                  ++ sign_diagnostic (OpStatus (answer (jbyteArrayToVector salt)))
                  ++ [key_failure] |}).
Proof.
  intros Ha.
  destruct (apartment_entered Hhost (world p)) as (w0 & H0).
  destruct (derive_refused (jbyteArrayToVector salt) []
              {| world := w0; cout := cout p |} Ha) as (w' & Hd).
  exists w'. unfold getEncryptionKey, try_catch_std_exception, getEncryptionKey_try.
  erewrite bind_Ret by (apply host_Ret, H0).
  erewrite bind_Ret by apply Hd.
  cbn. now rewrite <- app_assoc.
Qed.

Lemma set_signed data salt S p :
  answer (jbyteArrayToVector salt) = {| OpStatus := Success; Result := Some S |} ->
  exists w',
    setEncryptionKey Pf data salt p
    = (Ret (Some (CBC.encrypt (SHA256.sha256 S) (key_vector Pf (SHA256.sha256 S))
                    (jbyteArrayToVector data))),
       {| world := w'; cout := cout p |})
    /\ setEncryptionKey_try Pf data salt p = setEncryptionKey Pf data salt p.
Proof.
  intros Ha.
  destruct (apartment_entered Hhost (world p)) as (w0 & H0).
  destruct (derive_signed (jbyteArrayToVector salt) [] S
              {| world := w0; cout := cout p |} Ha) as (w' & Hd).
  exists w'.
  assert (setEncryptionKey_try Pf data salt p
          = (Ret (Some (CBC.encrypt (SHA256.sha256 S) (key_vector Pf (SHA256.sha256 S))
                          (jbyteArrayToVector data))),
             {| world := w'; cout := cout p |})) as Ht.
  { unfold setEncryptionKey_try.
    erewrite bind_Ret by (apply host_Ret, H0).
    erewrite bind_Ret by apply Hd.
    cbv iota beta. cbn [negb].
    erewrite bind_Ret by reflexivity.
    unfold CreateFromByteArray.
    erewrite bind_Ret
      by (unfold lift; rewrite CreateSymmetricKey_32 by apply sha256_length;
          reflexivity).
    erewrite bind_Ret
      by (unfold lift;
          erewrite Encrypt_with_key_as_iv
            by apply key_vector_accepted, sha256_length;
          reflexivity).
    erewrite bind_Ret by apply iBufferToVector_Some.
    now rewrite vectorToJbyteArray_Some. }
  unfold setEncryptionKey, try_catch_std_exception. now rewrite Ht.
Qed.

(** With a signature, [getEncryptionKey] is the engine's [Decrypt] under
    the hash of the signature, given as key and as vector. *)
Lemma get_signed data salt S p :
  answer (jbyteArrayToVector salt) = {| OpStatus := Success; Result := Some S |} ->
  exists w',
    getEncryptionKey Pf data salt p
    = match Decrypt Pf {| KeyMaterial := SHA256.sha256 S |}
              (Some (jbyteArrayToVector data)) (Some (SHA256.sha256 S)) with
      | Ret (Some x) => (Ret (Some x), {| world := w'; cout := cout p |})
      | Ret None => (Throw (hresult_error E_POINTER), {| world := w'; cout := cout p |})
      | Throw (hresult_error m) =>
          (Throw (hresult_error m), {| world := w'; cout := cout p |})
      | Throw (std_exception m) =>
          (Ret (Some []), {| world := w'; cout := cout p ++ [("Error: " ++ m)%string] |})
      | NullDeref => (NullDeref, {| world := w'; cout := cout p |})
      end.
Proof.
  intros Ha.
  destruct (apartment_entered Hhost (world p)) as (w0 & H0).
  destruct (derive_signed (jbyteArrayToVector salt) [] S
              {| world := w0; cout := cout p |} Ha) as (w' & Hd).
  exists w'.
  unfold getEncryptionKey, try_catch_std_exception, getEncryptionKey_try.
  erewrite bind_Ret by (apply host_Ret, H0).
  erewrite bind_Ret by apply Hd.
  cbv iota beta. cbn [negb].
  erewrite bind_Ret by reflexivity.
  unfold CreateFromByteArray.
  erewrite bind_Ret
    by (unfold lift; rewrite CreateSymmetricKey_32 by apply sha256_length;
        reflexivity).
  destruct (Decrypt _ _ _) as [[x|]|[m|m]|] eqn:E.
  - erewrite bind_Ret by reflexivity.
    erewrite bind_Ret by apply iBufferToVector_Some.
    now rewrite vectorToJbyteArray_Some.
  - erewrite bind_Ret by reflexivity. reflexivity.
  - reflexivity.
  - reflexivity.
  - reflexivity.
Qed.

End UnderHostAnswers.

(** ** Key derivation on any host *)

Lemma try_catch_hresult_error_Ret W A (m : M W A) h p a p' :
  try_catch_hresult_error m h p = (Ret a, p') ->
  m p = (Ret a, p') \/
  exists message p0, m p = (Throw (hresult_error message), p0)
                     /\ h message p0 = (Ret a, p').
Proof.
  unfold try_catch_hresult_error.
  destruct (m p) as [[x|[message|what]|] p0]; intros H; try discriminate H.
  - now left.
  - right. now exists message, p0.
Qed.

Section AnyHost.

Variable Pf : Platform.

(** When the signing part returns [true], the host has answered the
    signing request with [Success] and a signature, and the key is its
    SHA-256 hash. *)
Lemma sign_true challengeBuffer key r p k p' :
  deriveEncryptionKey_sign Pf challengeBuffer key r p = (Ret (true, k), p') ->
  exists c w' S,
    Credential r = Some c /\
    RequestSignAsync Pf c challengeBuffer (world p)
    = (Ret {| OpStatus := Success; Result := Some S |}, w') /\
    k = SHA256.sha256 S /\ p' = {| world := w'; cout := cout p |}.
Proof.
  unfold deriveEncryptionKey_sign.
  destruct (Credential r) as [c|]; [|discriminate].
  unfold bind at 1, host.
  destruct (RequestSignAsync Pf c challengeBuffer (world p))
    as [[[st res]|e|] w'] eqn:Hs; [|discriminate..].
  cbn [OpStatus Result].
  destruct st; cbn [status_eqb negb];
    try (unfold bind, cout_line, ret; cbn; discriminate).
  destruct res as [S|].
  - erewrite bind_Ret by reflexivity.
    erewrite bind_Ret by reflexivity.
    erewrite bind_Ret by apply iBufferToVector_Some.
    intros H; injection H as <- <-.
    exists c, w', S. auto.
  - erewrite bind_Ret by reflexivity.
    erewrite bind_Throw by reflexivity. discriminate.
Qed.

Lemma derive_true challenge key p k p' :
  deriveEncryptionKey Pf challenge key p = (Ret (true, k), p') ->
  exists c w w' S,
    RequestSignAsync Pf c (Some challenge) w
    = (Ret {| OpStatus := Success; Result := Some S |}, w') /\
    k = SHA256.sha256 S.
Proof.
  unfold deriveEncryptionKey. intros H.
  apply try_catch_hresult_error_Ret in H.
  destruct H as [H | (m & p0 & _ & H)];
    [|unfold bind, cout_line, ret in H; discriminate H].
  revert H. unfold bind at 1, host.
  destruct (RequestCreateAsync Pf s_winHelloKeyName FailIfExists (world p))
    as [[r|e|] w1]; [|discriminate..].
  destruct (status_eqb (Status r) CredentialAlreadyExists).
  - unfold bind at 1, host. cbn [world cout].
    destruct (OpenAsync Pf s_winHelloKeyName w1) as [[r'|e|] w2]; [|discriminate..].
    intros H. apply sign_true in H.
    destruct H as (c & w' & S & _ & Hs & Hk & _). eauto 8.
  - destruct (negb (status_eqb (Status r) Success)).
    + unfold bind, cout_line, ret. cbn. discriminate.
    + intros H. apply sign_true in H.
      destruct H as (c & w' & S & _ & Hs & Hk & _). eauto 8.
Qed.

End AnyHost.

Lemma try_catch_std_exception_passes W A (m : M W A) h p a p' :
  m p = (Ret a, p') -> try_catch_std_exception m h p = (Ret a, p').
Proof. intros H. unfold try_catch_std_exception. now rewrite H. Qed.

(** The [try] block of [setEncryptionKey] returns only an envelope: the
    CBC encryption of the clear text under the hash of a signature. *)
Lemma setEncryptionKey_try_Ret Pf cleartext salt p arr p' :
  setEncryptionKey_try Pf cleartext salt p = (Ret arr, p') ->
  exists S,
    arr = Some (CBC.encrypt (SHA256.sha256 S) (key_vector Pf (SHA256.sha256 S))
                  (jbyteArrayToVector cleartext)).
Proof.
  unfold setEncryptionKey_try.
  unfold bind at 1.
  destruct (host (init_apartment Pf) p) as [[[]|e|] p0]; [|discriminate..].
  unfold bind at 1.
  destruct (deriveEncryptionKey Pf (jbyteArrayToVector salt) [] p0)
    as [[[ok k]|e|] p1] eqn:Hd; [|discriminate..].
  destruct ok; cbn [negb]; [|discriminate].
  apply derive_true in Hd. destruct Hd as (c & w & w' & S & _ & ->).
  erewrite bind_Ret by reflexivity.
  unfold CreateFromByteArray.
  erewrite bind_Ret
    by (unfold lift; rewrite CreateSymmetricKey_32 by apply sha256_length;
        reflexivity).
  destruct (engine_vector Pf (Some (SHA256.sha256 S))) as [v|] eqn:Hv.
  - erewrite bind_Ret
      by (unfold lift; erewrite Encrypt_with_key_as_iv by exact Hv;
          reflexivity).
    erewrite bind_Ret by apply iBufferToVector_Some.
    rewrite vectorToJbyteArray_Some.
    intros H; injection H as <- <-. exists S.
    unfold key_vector. rewrite Hv. reflexivity.
  - unfold bind at 1, lift, Encrypt. rewrite Hv. discriminate.
Qed.

(** The calls the signing part of [deriveEncryptionKey] makes: none, or
    one signing request. *)
Lemma sign_calls Pf challengeBuffer key r (p : Process (World (Recording Pf))) :
  exists calls,
    snd (world (snd (deriveEncryptionKey_sign (Recording Pf) challengeBuffer key r p)))
    = snd (world p) ++ calls /\
    (calls = [] \/ calls = [Call_RequestSignAsync challengeBuffer]).
Proof.
  unfold deriveEncryptionKey_sign.
  destruct (Credential r) as [c|].
  - exists [Call_RequestSignAsync challengeBuffer]. split; [|now right].
    unfold bind at 1, host. cbn [RequestSignAsync Recording recorded].
    unfold recorded.
    destruct (RequestSignAsync Pf c challengeBuffer (fst (world p)))
      as [[[st res]|e|] w']; try reflexivity.
    cbn [OpStatus Result].
    destruct st; try reflexivity.
    cbn [status_eqb negb].
    erewrite bind_Ret by reflexivity.
    destruct res as [S|].
    + erewrite bind_Ret by reflexivity.
      erewrite bind_Ret by apply iBufferToVector_Some.
      reflexivity.
    + reflexivity.
  - exists []. split; [|now left]. cbn. now rewrite app_nil_r.
Qed.

Lemma try_catch_hresult_error_log Pf A (m : M (World (Recording Pf)) A) message_line
  (a : A) p :
  snd (world (snd (try_catch_hresult_error m
                     (fun message => cout_line (message_line message) ;; ret a) p)))
  = snd (world (snd (m p))).
Proof.
  unfold try_catch_hresult_error.
  destruct (m p) as [[x|[message|what]|] p0]; reflexivity.
Qed.

(** ** The scripted host answers as its script says *)

Lemma Mock_answers (s : Mock.Script) :
  Mock.creation_status s = Success ->
  HostAnswers (Mock.platform s) (Mock.signer s).
Proof.
  intros Hs. split.
  - intros w. now exists w.
  - intros w. cbn [RequestCreateAsync OpenAsync Mock.platform].
    unfold Mock.create, Mock.open.
    destruct (Mock.exists_in s_winHelloKeyName w) eqn:E.
    + eexists _, w. split; [reflexivity|]. right. split; [reflexivity|].
      rewrite E. eexists _, w, s_winHelloKeyName. split; reflexivity.
    + rewrite Hs. cbn [status_eqb].
      eexists _, _. split; [reflexivity|]. left. split; [reflexivity|].
      now exists s_winHelloKeyName.
  - intros c challenge w. now exists w.
  - intros k Hk. exists (firstn 16 k).
    cbn [engine_vector Mock.platform]. unfold Mock.leading_block. now rewrite Hk.
Qed.

Lemma Mock_key_vector (s : Mock.Script) (k : bytes) :
  List.length k = 32%nat -> key_vector (Mock.platform s) k = firstn 16 k.
Proof.
  intros Hk. unfold key_vector. cbn [engine_vector Mock.platform].
  unfold Mock.leading_block. rewrite Hk. reflexivity.
Qed.

Lemma scenario_answers : HostAnswers scenario (signs_with (fun _ => S_fixed64)).
Proof. apply (Mock_answers (Mock.fixed_signature S_fixed64)). reflexivity. Qed.

Lemma tagging_host_answers :
  HostAnswers tagging_host
    (signs_with (fun challenge => bytes_of_string "signed:" ++ challenge)).
Proof. apply (Mock_answers Mock.tagging_signer). reflexivity. Qed.

(** An error of the engine's [Decrypt] is a [winrt::hresult_error]: the
    [catch] clause of [getEncryptionKey] lets it through. *)
Lemma decryption_error_leaves Pf answer (Hhost : HostAnswers Pf answer)
  data salt S message p :
  answer (jbyteArrayToVector salt) = {| OpStatus := Success; Result := Some S |} ->
  Decrypt Pf {| KeyMaterial := SHA256.sha256 S |}
    (Some (jbyteArrayToVector data)) (Some (SHA256.sha256 S))
  = Throw (hresult_error message) ->
  exists w',
    getEncryptionKey Pf data salt p
    = (Throw (hresult_error message), {| world := w'; cout := cout p |}).
Proof.
  intros Ha Hd.
  destruct (get_signed Pf answer Hhost data salt S p Ha) as (w' & Hget).
  rewrite Hd in Hget. now exists w'.
Qed.

(** ** Runs on the scripted host *)

(** The first run creates the credential and signs; a later run finds it,
    opens it and signs. *)
Example calls_of_a_first_run :
  snd (world (snd (deriveEncryptionKey (Recording scenario) C_0_to_f []
                     {| world := ([], []); cout := [] |})))
  = [Call_RequestCreateAsync s_winHelloKeyName FailIfExists;
     Call_RequestSignAsync (Some C_0_to_f)].
Proof. vm_compute. reflexivity. Qed.

Example calls_of_a_later_run :
  snd (world (snd (deriveEncryptionKey (Recording scenario) C_0_to_f []
                     {| world := ([s_winHelloKeyName], []); cout := [] |})))
  = [Call_RequestCreateAsync s_winHelloKeyName FailIfExists;
     Call_OpenAsync s_winHelloKeyName;
     Call_RequestSignAsync (Some C_0_to_f)].
Proof. vm_compute. reflexivity. Qed.

(** Section 8 of the design: the envelope of the 32 zero bytes, and the
    way back. *)
Example scenario_protect :
  setEncryptionKey scenario (Some P_zero32) (Some C_0_to_f) Mock.fresh
  = (Ret (Some (hex "1ea4efa5256fa28fc29ade3157cd0ef102f1003df13c22babfe033f9c6169b15c27535d312bb0b41ef3581b6c1307075")),
     Mock.enrolled).
Proof. vm_compute. reflexivity. Qed.

Example scenario_unprotect :
  getEncryptionKey scenario
    (Some (hex "1ea4efa5256fa28fc29ade3157cd0ef102f1003df13c22babfe033f9c6169b15c27535d312bb0b41ef3581b6c1307075"))
    (Some C_0_to_f) Mock.enrolled
  = (Ret (Some P_zero32), Mock.enrolled).
Proof. vm_compute. reflexivity. Qed.

(** A device without Windows Hello: the creation fails, nothing else is
    tried, and the entry point returns the empty array. *)
Example run_without_hello :
  setEncryptionKey (Mock.platform (Mock.no_hello NotFound))
    (Some P_zero32) (Some C_0_to_f) Mock.fresh
  = (Ret (Some []),
     {| world := [];
        cout := ["Failed to create Windows Hello credential."%string;
                 key_failure] |}).
Proof. vm_compute. reflexivity. Qed.

(** A signing request that fails, and one that the user cancels. *)
Example run_signing_failed :
  getEncryptionKey (Mock.platform (Mock.refusing_signer SecurityDeviceLocked))
    (Some P_zero32) (Some C_0_to_f) Mock.fresh
  = (Ret (Some []),
     {| world := [s_winHelloKeyName];
        cout := ["Failed to sign challenge using Windows Hello."%string;
                 key_failure] |}).
Proof. vm_compute. reflexivity. Qed.

Example run_cancelled :
  getEncryptionKey (Mock.platform (Mock.refusing_signer UserCanceled))
    (Some P_zero32) (Some C_0_to_f) Mock.fresh
  = (Ret (Some []),
     {| world := [s_winHelloKeyName]; cout := [key_failure] |}).
Proof. vm_compute. reflexivity. Qed.

(** * The properties of the design, one by one *)

(** C1: on a host whose signing step is a fixed function [sign] of the
    challenge, [getEncryptionKey] applied to the envelope that
    [setEncryptionKey] returned, with the same salt, returns the clear
    text; neither call prints a diagnostic. *)
Theorem C1_round_trip (Pf : Platform) (sign : bytes -> bytes)
  (Hhost : HostAnswers Pf (signs_with sign))
  (P C : bytes) (p : Process (World Pf)) :
  exists E p1,
    setEncryptionKey Pf (Some P) (Some C) p = (Ret (Some E), p1) /\
    cout p1 = cout p /\
    forall q, exists q',
      getEncryptionKey Pf (Some E) (Some C) q = (Ret (Some P), q') /\
      cout q' = cout q.
Proof.
  destruct (set_signed Pf _ Hhost (Some P) (Some C) (sign C) p) as (w1 & Hset & _).
  { now rewrite jbyteArrayToVector_Some. }
  rewrite jbyteArrayToVector_Some in Hset.
  eexists _, _. split; [exact Hset|]. split; [reflexivity|].
  intros q.
  destruct (get_signed Pf _ Hhost
              (Some (CBC.encrypt (SHA256.sha256 (sign C))
                       (key_vector Pf (SHA256.sha256 (sign C))) P))
              (Some C) (sign C) q) as (w2 & Hget).
  { now rewrite jbyteArrayToVector_Some. }
  rewrite jbyteArrayToVector_Some in Hget.
  erewrite Decrypt_Encrypt in Hget
    by (eapply key_vector_accepted; [exact Hhost | apply sha256_length]).
  eexists. split; [exact Hget | reflexivity].
Qed.

Lemma C1_round_trip_witness :
  HostAnswers scenario (signs_with (fun _ => S_fixed64)) /\
  exists E p1,
    setEncryptionKey scenario (Some P_zero32) (Some C_0_to_f) Mock.fresh
    = (Ret (Some E), p1) /\
    cout p1 = cout Mock.fresh /\
    forall q, exists q',
      getEncryptionKey scenario (Some E) (Some C_0_to_f) q
      = (Ret (Some P_zero32), q') /\
      cout q' = cout q.
Proof.
  split; [exact scenario_answers|].
  exact (C1_round_trip scenario (fun _ => S_fixed64) scenario_answers
           P_zero32 C_0_to_f Mock.fresh).
Defined.

(** C2, as stated, fails: two encryptions of the same clear text with
    the same salt return the same envelope, and the envelope of the 32
    bytes has 48 bytes: the padded clear text, and no room for a
    vector. *)
Lemma C2_same_envelope_twice :
  exists E p1 p2,
    setEncryptionKey scenario (Some P_zero32) (Some C_0_to_f) Mock.fresh
    = (Ret (Some E), p1) /\
    setEncryptionKey scenario (Some P_zero32) (Some C_0_to_f) p1
    = (Ret (Some E), p2) /\
    List.length E = 48%nat /\
    List.length (CBC.pkcs7_pad P_zero32) = 48%nat.
Proof.
  eexists _, _, _.
  split; [vm_compute; reflexivity|].
  split; [vm_compute; reflexivity|].
  split; vm_compute; reflexivity.
Qed.

(** C2, amended: no vector is drawn and none is put into the envelope.
    For a challenge C there is one vector [v], the same at every call and
    for every clear text: the envelope is the CBC ciphertext of the
    padded clear text under the derived key, chained from [v], and has
    the length of the padded clear text; it is the same at every call;
    [getEncryptionKey], given the envelope and the salt, returns the
    clear text. *)
Theorem C2_no_fresh_vector (Pf : Platform) (sign : bytes -> bytes)
  (Hhost : HostAnswers Pf (signs_with sign)) (C : bytes) :
  exists v : bytes,
    forall P : bytes,
      let E := CBC.encrypt (SHA256.sha256 (sign C)) v P in
      List.length E = List.length (CBC.pkcs7_pad P) /\
      (forall p, exists p',
         setEncryptionKey Pf (Some P) (Some C) p = (Ret (Some E), p')) /\
      (forall r, exists r',
         getEncryptionKey Pf (Some E) (Some C) r = (Ret (Some P), r')).
Proof.
  pose proof (key_vector_accepted Pf _ Hhost _ (sha256_length (sign C))) as Hv.
  exists (key_vector Pf (SHA256.sha256 (sign C))). intros P. cbv zeta.
  split; [now rewrite CBCFacts.encrypt_length, CBCFacts.pkcs7_pad_length|].
  split.
  - intros p.
    destruct (set_signed Pf _ Hhost (Some P) (Some C) (sign C) p)
      as (w1 & Hp & _).
    { now rewrite jbyteArrayToVector_Some. }
    rewrite jbyteArrayToVector_Some in Hp.
    eexists. exact Hp.
  - intros r.
    destruct (get_signed Pf _ Hhost
                (Some (CBC.encrypt (SHA256.sha256 (sign C))
                         (key_vector Pf (SHA256.sha256 (sign C))) P))
                (Some C) (sign C) r) as (w3 & Hget).
    { now rewrite jbyteArrayToVector_Some. }
    rewrite jbyteArrayToVector_Some in Hget.
    erewrite Decrypt_Encrypt in Hget by exact Hv.
    eexists. exact Hget.
Qed.

Lemma C2_no_fresh_vector_witness :
  HostAnswers tagging_host
    (signs_with (fun challenge => bytes_of_string "signed:" ++ challenge)) /\
  exists v : bytes,
    forall P : bytes,
      let E := CBC.encrypt
                 (SHA256.sha256 (bytes_of_string "signed:" ++ salt_0)) v P in
      List.length E = List.length (CBC.pkcs7_pad P) /\
      (forall p, exists p',
         setEncryptionKey tagging_host (Some P) (Some salt_0) p
         = (Ret (Some E), p')) /\
      (forall r, exists r',
         getEncryptionKey tagging_host (Some E) (Some salt_0) r
         = (Ret (Some P), r')).
Proof.
  split; [exact tagging_host_answers|].
  exact (C2_no_fresh_vector tagging_host _ tagging_host_answers salt_0).
Defined.

(** C3, at a failing input: a ciphertext of one byte.  The derivation
    succeeds, the engine refuses the data with a [winrt::hresult_error],
    and [catch (const std::exception&)] does not catch it: the exception
    leaves [getEncryptionKey], no array is returned and nothing is
    printed. *)
Theorem C3_decryption_error_escapes :
  getEncryptionKey scenario (Some [x00]) (Some C_0_to_f) Mock.enrolled
  = (Throw (hresult_error NTE_BAD_DATA), Mock.enrolled).
Proof. vm_compute. reflexivity. Qed.

(** C4: the key that [deriveEncryptionKey] hands out is the SHA-256 hash
    of the signature the host returned for the challenge, and of nothing
    else; it has 32 bytes. *)
Theorem C4_derived_key_is_sha256_of_signature
  (Pf : Platform) (challenge key0 k : bytes) (p p' : Process (World Pf)) :
  deriveEncryptionKey Pf challenge key0 p = (Ret (true, k), p') ->
  exists c w w' S,
    RequestSignAsync Pf c (Some challenge) w
    = (Ret {| OpStatus := Success; Result := Some S |}, w') /\
    k = SHA256.sha256 S /\ List.length k = 32%nat.
Proof.
  intros H. apply derive_true in H.
  destruct H as (c & w & w' & S & Hs & ->).
  exists c, w, w', S. repeat split; [assumption | apply sha256_length].
Qed.

Lemma C4_derived_key_witness :
  let k := SHA256.sha256 S_fixed64 in
  deriveEncryptionKey scenario C_0_to_f [] Mock.fresh
  = (Ret (true, k), Mock.enrolled) /\
  exists c w w' S,
    RequestSignAsync scenario c (Some C_0_to_f) w
    = (Ret {| OpStatus := Success; Result := Some S |}, w') /\
    k = SHA256.sha256 S /\ List.length k = 32%nat.
Proof.
  cbv zeta. split; [vm_compute; reflexivity|].
  apply (C4_derived_key_is_sha256_of_signature scenario C_0_to_f []
           (SHA256.sha256 S_fixed64) Mock.fresh Mock.enrolled).
  vm_compute. reflexivity.
Defined.

(** C5: [deriveEncryptionKey] first asks the host to create the credential
    under the fixed name, failing if it exists; when the answer is that it
    exists, the next call opens the credential of that name; on any other
    failure no further call is made and the operation fails. *)
Theorem C5_create_then_open_or_fail (Pf : Platform) (challenge key : bytes)
  (p : Process (World (Recording Pf))) :
  let run := deriveEncryptionKey (Recording Pf) challenge key p in
  exists calls,
    snd (world (snd run))
    = snd (world p)
      ++ Call_RequestCreateAsync s_winHelloKeyName FailIfExists :: calls /\
    match fst (RequestCreateAsync Pf s_winHelloKeyName FailIfExists
                 (fst (world p))) with
    | Ret r =>
        match Status r with
        | CredentialAlreadyExists =>
            exists rest, calls = Call_OpenAsync s_winHelloKeyName :: rest
        | Success => forall name, ~ In (Call_OpenAsync name) calls
        | _ =>
            calls = [] /\ fst run = Ret (false, key) /\
            cout (snd run)
            = cout p ++ ["Failed to create Windows Hello credential."%string]
        end
    | _ => calls = []
    end.
Proof.
  cbv zeta.
  assert (Hbody :
    deriveEncryptionKey (Recording Pf) challenge key p
    = try_catch_hresult_error
        (match RequestCreateAsync Pf s_winHelloKeyName FailIfExists (fst (world p)) with
         | (Ret r, w1) =>
             let p1 := {| world := (w1, snd (world p)
                                        ++ [Call_RequestCreateAsync s_winHelloKeyName FailIfExists]);
                          cout := cout p |} in
             fun _ =>
             (if status_eqb (Status r) CredentialAlreadyExists then
                result <- host (OpenAsync (Recording Pf) s_winHelloKeyName) ;;
                deriveEncryptionKey_sign (Recording Pf) (Some challenge) key result
              else if negb (status_eqb (Status r) Success) then
                cout_line "Failed to create Windows Hello credential." ;;
                ret (false, key)
              else deriveEncryptionKey_sign (Recording Pf) (Some challenge) key r) p1
         | (Throw e, w1) => fun _ =>
             (Throw e, {| world := (w1, snd (world p)
                                        ++ [Call_RequestCreateAsync s_winHelloKeyName FailIfExists]);
                          cout := cout p |})
         | (NullDeref, w1) => fun _ =>
             (NullDeref, {| world := (w1, snd (world p)
                                        ++ [Call_RequestCreateAsync s_winHelloKeyName FailIfExists]);
                          cout := cout p |})
         end)
        (fun message => cout_line message ;; ret (false, key)) p).
  { unfold deriveEncryptionKey, try_catch_hresult_error, bind at 1, host at 1.
    cbn [RequestCreateAsync Recording]. unfold recorded at 1.
    destruct (RequestCreateAsync Pf s_winHelloKeyName FailIfExists (fst (world p)))
      as [[r|e|] w1]; reflexivity. }
  rewrite Hbody. clear Hbody.
  destruct (RequestCreateAsync Pf s_winHelloKeyName FailIfExists (fst (world p)))
    as [[r|e|] w1] eqn:Hc; cbn [fst].
  2,3: exists []; split; [rewrite try_catch_hresult_error_log; reflexivity | reflexivity].
  cbv zeta.
  destruct (Status r) eqn:Hs; cbn [status_eqb negb];
    try (exists []; repeat split; reflexivity).
  - (* created: the signing part runs on the new credential *)
    rewrite try_catch_hresult_error_log.
    match goal with |- context [deriveEncryptionKey_sign _ ?b ?k ?r ?q] =>
      destruct (sign_calls Pf b k r q) as (calls & Hl & Hcalls) end.
    exists calls. split.
    + rewrite Hl. cbn [world snd]. now rewrite <- app_assoc.
    + intros name Hin.
      destruct Hcalls as [-> | ->]; cbn in Hin; intuition discriminate.
  - (* it exists: the credential is opened *)
    rewrite try_catch_hresult_error_log.
    unfold bind at 1, host at 1. cbn [OpenAsync Recording world cout].
    unfold recorded at 1. cbn [fst snd].
    destruct (OpenAsync Pf s_winHelloKeyName w1) as [[r'|e|] w2].
    + match goal with |- context [deriveEncryptionKey_sign _ ?b ?k ?r ?q] =>
        destruct (sign_calls Pf b k r q) as (calls & Hl & _) end.
      exists (Call_OpenAsync s_winHelloKeyName :: calls). split.
      * rewrite Hl. cbn [world snd]. now rewrite <- !app_assoc.
      * now exists calls.
    + exists [Call_OpenAsync s_winHelloKeyName]. split.
      * cbn [world snd]. now rewrite <- app_assoc.
      * now exists [].
    + exists [Call_OpenAsync s_winHelloKeyName]. split.
      * cbn [world snd]. now rewrite <- app_assoc.
      * now exists [].
Qed.

(** C6, as stated, fails: a cancelled signing request and a refused one
    (here: the device is locked) end alike.  Both entry points return the
    empty array and report that no key was generated; the result holds no
    classification. *)
Lemma C6_cancelled_returns_as_refused :
  let cancelled := Mock.platform (Mock.refusing_signer UserCanceled) in
  let locked := Mock.platform (Mock.refusing_signer SecurityDeviceLocked) in
  let p' := fun lines => {| world := [s_winHelloKeyName]; cout := lines |} in
  setEncryptionKey cancelled (Some P_zero32) (Some C_0_to_f) Mock.fresh
  = (Ret (Some []), p' [key_failure]) /\
  setEncryptionKey locked (Some P_zero32) (Some C_0_to_f) Mock.fresh
  = (Ret (Some []),
     p' ["Failed to sign challenge using Windows Hello."%string; key_failure]) /\
  getEncryptionKey cancelled (Some P_zero32) (Some C_0_to_f) Mock.fresh
  = (Ret (Some []), p' [key_failure]) /\
  getEncryptionKey locked (Some P_zero32) (Some C_0_to_f) Mock.fresh
  = (Ret (Some []),
     p' ["Failed to sign challenge using Windows Hello."%string; key_failure]).
Proof. cbv zeta. repeat split; vm_compute; reflexivity. Qed.

(** C6, amended: when the signing request is refused, by the user or for
    any other reason, both entry points return the same empty array and
    print the same last line, "Error: Failed to generate the encryption
    key.".  Cancellation shows in the diagnostics alone: the line "Failed
    to sign challenge using Windows Hello." comes before the last one
    unless the user cancelled. *)
Theorem C6_refusals_end_alike
  (Pf : Platform) (answer : bytes -> KeyCredentialOperationResult)
  (Hhost : HostAnswers Pf answer)
  (data : jbyteArray) (C : bytes) (p : Process (World Pf)) :
  OpStatus (answer C) <> Success ->
  let diagnostics :=
    if status_eqb (OpStatus (answer C)) UserCanceled then [key_failure]
    else ["Failed to sign challenge using Windows Hello."%string; key_failure] in
  (exists w',
     setEncryptionKey Pf data (Some C) p
     = (Ret (Some []), {| world := w'; cout := cout p ++ diagnostics |})) /\
  (exists w',
     getEncryptionKey Pf data (Some C) p
     = (Ret (Some []), {| world := w'; cout := cout p ++ diagnostics |})).
Proof.
  intros Hst. cbv zeta.
  destruct (set_refused Pf answer Hhost data (Some C) p) as (w1 & H1);
    [now rewrite jbyteArrayToVector_Some|].
  destruct (get_refused Pf answer Hhost data (Some C) p) as (w2 & H2);
    [now rewrite jbyteArrayToVector_Some|].
  rewrite jbyteArrayToVector_Some in H1, H2.
  unfold sign_diagnostic in H1, H2.
  split; [exists w1 | exists w2];
    destruct (status_eqb (OpStatus (answer C)) UserCanceled); assumption.
Qed.

Lemma C6_refusals_end_alike_witness :
  let Pf := Mock.platform (Mock.refusing_signer UserCanceled) in
  HostAnswers Pf (Mock.signer (Mock.refusing_signer UserCanceled)) /\
  OpStatus (Mock.signer (Mock.refusing_signer UserCanceled) C_0_to_f)
  <> Success /\
  (exists w',
     setEncryptionKey Pf (Some P_zero32) (Some C_0_to_f) Mock.fresh
     = (Ret (Some []), {| world := w'; cout := [key_failure] |})) /\
  (exists w',
     getEncryptionKey Pf (Some P_zero32) (Some C_0_to_f) Mock.fresh
     = (Ret (Some []), {| world := w'; cout := [key_failure] |})).
Proof.
  cbv zeta.
  split; [exact (Mock_answers (Mock.refusing_signer UserCanceled) eq_refl)|].
  split; [discriminate|].
  apply (C6_refusals_end_alike
           (Mock.platform (Mock.refusing_signer UserCanceled))
           (Mock.signer (Mock.refusing_signer UserCanceled))
           (Mock_answers (Mock.refusing_signer UserCanceled) eq_refl)
           (Some P_zero32) C_0_to_f Mock.fresh).
  discriminate.
Defined.

(** C7, as stated, fails: an empty signature is not rejected; it is
    hashed, and the key is the SHA-256 hash of the empty string. *)
Lemma C7_empty_signature_is_hashed :
  deriveEncryptionKey (Mock.platform (Mock.fixed_signature [])) C_0_to_f []
    Mock.fresh
  = (Ret (true, hex "e3b0c44298fc1c149afbf4c8996fb92427ae41e4649b934ca495991b7852b855"),
     Mock.enrolled).
Proof. vm_compute. reflexivity. Qed.

(** C7, amended: key derivation rejects no signature.  Whatever bytes the
    signing step returns, the empty sequence included, are hashed, and
    the derivation succeeds with a key of 32 bytes. *)
Theorem C7_every_signature_is_hashed
  (Pf : Platform) (answer : bytes -> KeyCredentialOperationResult)
  (Hhost : HostAnswers Pf answer)
  (C key S : bytes) (p : Process (World Pf)) :
  answer C = {| OpStatus := Success; Result := Some S |} ->
  exists w',
    deriveEncryptionKey Pf C key p
    = (Ret (true, SHA256.sha256 S), {| world := w'; cout := cout p |}) /\
    List.length (SHA256.sha256 S) = 32%nat.
Proof.
  intros Ha.
  destruct (derive_signed Pf answer Hhost C key S p Ha) as (w' & H).
  exists w'. split; [exact H | apply sha256_length].
Qed.

Lemma C7_every_signature_witness :
  let Pf := Mock.platform (Mock.fixed_signature []) in
  HostAnswers Pf (Mock.signer (Mock.fixed_signature [])) /\
  exists w',
    deriveEncryptionKey Pf C_0_to_f [] Mock.fresh
    = (Ret (true, SHA256.sha256 []), {| world := w'; cout := [] |}) /\
    List.length (SHA256.sha256 []) = 32%nat.
Proof.
  cbv zeta.
  split; [exact (Mock_answers (Mock.fixed_signature []) eq_refl)|].
  apply (C7_every_signature_is_hashed
           (Mock.platform (Mock.fixed_signature []))
           (Mock.signer (Mock.fixed_signature []))
           (Mock_answers (Mock.fixed_signature []) eq_refl)
           C_0_to_f [] [] Mock.fresh).
  reflexivity.
Defined.

(** C8, as stated, fails: the envelope of "master key" under the
    challenge "salt-0" is decrypted under the challenge "salt-K" into
    fifteen other bytes, which are returned as a result; nothing is
    printed. *)
Lemma C8_wrong_challenge_returns_garbage :
  exists E p1,
    setEncryptionKey tagging_host (Some master_key) (Some salt_0) Mock.fresh
    = (Ret (Some E), p1) /\
    salt_0 <> salt_K /\
    getEncryptionKey tagging_host (Some E) (Some salt_K) p1
    = (Ret (Some (hex "3b0d665490388c2144b139cece54f2")), p1) /\
    hex "3b0d665490388c2144b139cece54f2" <> master_key.
Proof.
  eexists _, _. split; [vm_compute; reflexivity|].
  split; [discriminate|]. split; [vm_compute; reflexivity | discriminate].
Qed.

(** C8, amended: with the challenge C2 in place of C1, [getEncryptionKey]
    decrypts the envelope under the key derived from C2.  It returns
    bytes exactly when the padding of that decryption is valid: these
    bytes, whatever they are, as a result and without a diagnostic.  When
    the padding is invalid, no clear text is returned. *)
Theorem C8_wrong_challenge_is_not_detected
  (Pf : Platform) (sign : bytes -> bytes)
  (Hhost : HostAnswers Pf (signs_with sign))
  (P C1 C2 : bytes) (p q : Process (World Pf)) :
  C1 <> C2 ->
  let k2 := SHA256.sha256 (sign C2) in
  exists E p',
    setEncryptionKey Pf (Some P) (Some C1) p = (Ret (Some E), p') /\
    (forall X,
       CBC.decrypt k2 (key_vector Pf k2) E = Some X ->
       exists w',
         getEncryptionKey Pf (Some E) (Some C2) q
         = (Ret (Some X), {| world := w'; cout := cout q |})) /\
    (CBC.decrypt k2 (key_vector Pf k2) E = None ->
     forall X q',
       getEncryptionKey Pf (Some E) (Some C2) q = (Ret (Some X), q') ->
       X = []).
Proof.
  intros _. cbv zeta.
  destruct (set_signed Pf _ Hhost (Some P) (Some C1) (sign C1) p) as (w1 & Hset & _).
  { now rewrite jbyteArrayToVector_Some. }
  rewrite jbyteArrayToVector_Some in Hset.
  eexists _, _. split; [exact Hset|].
  set (E := CBC.encrypt _ _ P).
  destruct (get_signed Pf _ Hhost (Some E) (Some C2) (sign C2) q) as (w2 & Hget).
  { now rewrite jbyteArrayToVector_Some. }
  rewrite jbyteArrayToVector_Some in Hget.
  erewrite Decrypt_with_key_as_iv in Hget
    by (eapply key_vector_accepted; [exact Hhost | apply sha256_length]).
  unfold E in Hget at 1 2. rewrite envelope_whole_blocks in Hget. fold E in Hget.
  split.
  - intros X HX. rewrite HX in Hget. now exists w2.
  - intros HN X q' HX. rewrite HN, HX in Hget. discriminate Hget.
Qed.

Lemma C8_wrong_challenge_witness :
  HostAnswers tagging_host
    (signs_with (fun challenge => bytes_of_string "signed:" ++ challenge)) /\
  salt_0 <> salt_K /\
  let k2 := SHA256.sha256 (bytes_of_string "signed:" ++ salt_K) in
  exists E p',
    setEncryptionKey tagging_host (Some master_key) (Some salt_0) Mock.fresh
    = (Ret (Some E), p') /\
    (forall X,
       CBC.decrypt k2 (key_vector tagging_host k2) E = Some X ->
       exists w',
         getEncryptionKey tagging_host (Some E) (Some salt_K) Mock.enrolled
         = (Ret (Some X), {| world := w'; cout := cout Mock.enrolled |})) /\
    (CBC.decrypt k2 (key_vector tagging_host k2) E = None ->
     forall X q',
       getEncryptionKey tagging_host (Some E) (Some salt_K) Mock.enrolled
       = (Ret (Some X), q') ->
       X = []).
Proof.
  split; [exact tagging_host_answers|].
  split; [discriminate|].
  apply (C8_wrong_challenge_is_not_detected tagging_host _ tagging_host_answers
           master_key salt_0 salt_K Mock.fresh Mock.enrolled).
  discriminate.
Defined.

(** C9, as stated, fails for a null ciphertext: it is read as the empty
    byte sequence, which is no envelope; the engine refuses it and
    [getEncryptionKey] ends in an error. *)
Lemma C9_null_ciphertext_is_refused :
  jbyteArrayToVector None = [] /\
  getEncryptionKey scenario None (Some C_0_to_f) Mock.enrolled
  = (Throw (hresult_error NTE_BAD_DATA), Mock.enrolled).
Proof. split; [reflexivity | vm_compute; reflexivity]. Qed.

(** C9, amended: a null array is read as the empty byte sequence, and
    the entry points go on as with an empty array.  A null clear text is
    encrypted as the empty clear text, into one block that decrypts to
    the empty array; a null salt is signed as the empty challenge, and
    the envelope made with it is opened with it; a null ciphertext is
    refused as the empty one is: the [try] block ends in an exception and
    no clear text is returned. *)
Theorem C9_null_array_is_read_as_empty (Pf : Platform) (sign : bytes -> bytes)
  (Hhost : HostAnswers Pf (signs_with sign))
  (P C : bytes) (p : Process (World Pf)) :
  jbyteArrayToVector None = [] /\
  (exists E p',
     setEncryptionKey Pf None (Some C) p = (Ret (Some E), p') /\
     setEncryptionKey Pf (Some []) (Some C) p = (Ret (Some E), p') /\
     List.length E = 16%nat /\
     cout p' = cout p /\
     forall q, exists q',
       getEncryptionKey Pf (Some E) (Some C) q = (Ret (Some []), q')) /\
  (exists E p',
     setEncryptionKey Pf (Some P) None p = (Ret (Some E), p') /\
     setEncryptionKey Pf (Some P) (Some []) p = (Ret (Some E), p') /\
     (exists v, E = CBC.encrypt (SHA256.sha256 (sign [])) v P) /\
     cout p' = cout p /\
     forall q, exists q',
       getEncryptionKey Pf (Some E) None q = (Ret (Some P), q')) /\
  (exists e p',
     getEncryptionKey_try Pf None (Some C) p = (Throw e, p') /\
     getEncryptionKey_try Pf (Some []) (Some C) p = (Throw e, p') /\
     cout p' = cout p) /\
  (forall X p',
     getEncryptionKey Pf None (Some C) p = (Ret (Some X), p') -> X = []).
Proof.
  assert (Hv : forall S : bytes,
             engine_vector Pf (Some (SHA256.sha256 S))
             = Some (key_vector Pf (SHA256.sha256 S)))
    by (intros S; apply (key_vector_accepted Pf _ Hhost), sha256_length).
  split; [reflexivity|]. split; [|split; [|split]].
  - (* a null clear text *)
    destruct (set_signed Pf _ Hhost None (Some C) (sign C) p) as (w1 & Hset & _).
    { now rewrite jbyteArrayToVector_Some. }
    cbn [jbyteArrayToVector] in Hset.
    eexists _, _. split; [exact Hset|]. split; [exact Hset|].
    split; [now rewrite CBCFacts.encrypt_length|]. split; [reflexivity|].
    intros q.
    destruct (get_signed Pf _ Hhost
                (Some (CBC.encrypt (SHA256.sha256 (sign C))
                         (key_vector Pf (SHA256.sha256 (sign C))) []))
                (Some C) (sign C) q) as (w2 & Hget).
    { now rewrite jbyteArrayToVector_Some. }
    rewrite jbyteArrayToVector_Some in Hget.
    erewrite Decrypt_Encrypt in Hget by apply Hv.
    eexists. exact Hget.
  - (* a null salt *)
    destruct (set_signed Pf _ Hhost (Some P) None (sign []) p) as (w1 & Hset & _).
    { reflexivity. }
    rewrite jbyteArrayToVector_Some in Hset.
    eexists _, _. split; [exact Hset|]. split; [exact Hset|].
    split; [eexists; reflexivity|]. split; [reflexivity|].
    intros q.
    destruct (get_signed Pf _ Hhost
                (Some (CBC.encrypt (SHA256.sha256 (sign []))
                         (key_vector Pf (SHA256.sha256 (sign []))) P))
                None (sign []) q) as (w2 & Hget).
    { reflexivity. }
    rewrite jbyteArrayToVector_Some in Hget.
    erewrite Decrypt_Encrypt in Hget by apply Hv.
    eexists. exact Hget.
  - (* a null ciphertext: the try block *)
    destruct (get_signed Pf _ Hhost None (Some C) (sign C) p) as (w2 & Hget).
    { now rewrite jbyteArrayToVector_Some. }
    cbn [jbyteArrayToVector] in Hget.
    erewrite Decrypt_with_key_as_iv in Hget by apply Hv.
    cbn in Hget.
    unfold getEncryptionKey, try_catch_std_exception in Hget.
    exists (hresult_error NTE_BAD_DATA), {| world := w2; cout := cout p |}.
    assert (Ht : getEncryptionKey_try Pf None (Some C) p
                 = (Throw (hresult_error NTE_BAD_DATA),
                    {| world := w2; cout := cout p |})).
    { destruct (getEncryptionKey_try Pf None (Some C) p)
        as [[a|[m|w]|] p0]; try exact Hget; discriminate Hget. }
    split; [exact Ht|]. split; [exact Ht | reflexivity].
  - (* a null ciphertext: the entry point *)
    intros X p' HX.
    destruct (get_signed Pf _ Hhost None (Some C) (sign C) p) as (w2 & Hget).
    { now rewrite jbyteArrayToVector_Some. }
    cbn [jbyteArrayToVector] in Hget.
    erewrite Decrypt_with_key_as_iv in Hget by apply Hv.
    cbn in Hget. rewrite HX in Hget. discriminate Hget.
Qed.

Lemma C9_null_array_witness :
  let sign := fun challenge => bytes_of_string "signed:" ++ challenge in
  HostAnswers tagging_host (signs_with sign) /\
  jbyteArrayToVector None = [] /\
  (exists E p',
     setEncryptionKey tagging_host None (Some salt_0) Mock.fresh
     = (Ret (Some E), p') /\
     setEncryptionKey tagging_host (Some []) (Some salt_0) Mock.fresh
     = (Ret (Some E), p') /\
     List.length E = 16%nat /\
     cout p' = cout Mock.fresh /\
     forall q, exists q',
       getEncryptionKey tagging_host (Some E) (Some salt_0) q
       = (Ret (Some []), q')) /\
  (exists E p',
     setEncryptionKey tagging_host (Some master_key) None Mock.fresh
     = (Ret (Some E), p') /\
     setEncryptionKey tagging_host (Some master_key) (Some []) Mock.fresh
     = (Ret (Some E), p') /\
     (exists v, E = CBC.encrypt (SHA256.sha256 (sign [])) v master_key) /\
     cout p' = cout Mock.fresh /\
     forall q, exists q',
       getEncryptionKey tagging_host (Some E) None q
       = (Ret (Some master_key), q')) /\
  (exists e p',
     getEncryptionKey_try tagging_host None (Some salt_0) Mock.fresh
     = (Throw e, p') /\
     getEncryptionKey_try tagging_host (Some []) (Some salt_0) Mock.fresh
     = (Throw e, p') /\
     cout p' = cout Mock.fresh) /\
  (forall X p',
     getEncryptionKey tagging_host None (Some salt_0) Mock.fresh
     = (Ret (Some X), p') -> X = []).
Proof.
  cbv zeta. split; [exact tagging_host_answers|].
  exact (C9_null_array_is_read_as_empty tagging_host _ tagging_host_answers
           master_key salt_0 Mock.fresh).
Defined.

(** C10: when [setEncryptionKey] succeeds on a clear text of n bytes, the
    envelope has (n / 16 + 1) * 16 bytes: the padded length, a positive
    multiple of the block size, and nothing more. *)
Theorem C10_envelope_length
  (Pf : Platform) (cleartext salt arr : jbyteArray) (p p' : Process (World Pf)) :
  setEncryptionKey_try Pf cleartext salt p = (Ret arr, p') ->
  exists E,
    setEncryptionKey Pf cleartext salt p = (Ret (Some E), p') /\
    List.length E
    = ((List.length (jbyteArrayToVector cleartext) / 16 + 1) * 16)%nat /\
    (0 < List.length E)%nat /\ (List.length E mod 16 = 0)%nat.
Proof.
  intros H.
  destruct (setEncryptionKey_try_Ret _ _ _ _ _ _ H) as (S & ->).
  eexists. split.
  - unfold setEncryptionKey. apply try_catch_std_exception_passes. exact H.
  - rewrite CBCFacts.encrypt_length. split; [lia|]. split; [lia|].
    rewrite Nat.mul_comm. apply Nat.Div0.mod_mul.
Qed.

Lemma C10_envelope_length_witness :
  let E := CBC.encrypt (SHA256.sha256 S_fixed64)
             (key_vector scenario (SHA256.sha256 S_fixed64)) P_zero32 in
  setEncryptionKey_try scenario (Some P_zero32) (Some C_0_to_f) Mock.fresh
  = (Ret (Some E), Mock.enrolled) /\
  exists E',
    setEncryptionKey scenario (Some P_zero32) (Some C_0_to_f) Mock.fresh
    = (Ret (Some E'), Mock.enrolled) /\
    List.length E'
    = ((List.length (jbyteArrayToVector (Some P_zero32)) / 16 + 1) * 16)%nat /\
    (0 < List.length E')%nat /\ (List.length E' mod 16 = 0)%nat.
Proof.
  cbv zeta. split; [vm_compute; reflexivity|].
  apply (C10_envelope_length scenario (Some P_zero32) (Some C_0_to_f)
           (Some (CBC.encrypt (SHA256.sha256 S_fixed64)
                    (key_vector scenario (SHA256.sha256 S_fixed64)) P_zero32))).
  vm_compute. reflexivity.
Defined.
(** ** What a failed derivation leaves behind *)

Section Failures.

Variable Pf : Platform.

(** The signing part prints only on its way to [return false]: a run
    that throws or crashes has printed nothing. *)
Lemma sign_outcomes challengeBuffer key r p :
  match deriveEncryptionKey_sign Pf challengeBuffer key r p with
  | (Ret (true, _), p') => cout p' = cout p
  | (Ret (false, k), p') =>
      k = key /\
      (cout p' = cout p \/
       cout p' = cout p ++ ["Failed to sign challenge using Windows Hello."%string])
  | (_, p') => cout p' = cout p
  end.
Proof.
  unfold deriveEncryptionKey_sign.
  destruct (Credential r) as [c|]; [|reflexivity].
  unfold bind at 1, host.
  destruct (RequestSignAsync Pf c challengeBuffer (world p))
    as [[[st res]|e|] w']; [|reflexivity..].
  cbn [OpStatus Result].
  destruct st; cbn [status_eqb negb];
    try (cbn; split; [reflexivity | now right]).
  - erewrite bind_Ret by reflexivity.
    destruct res as [S|].
    + erewrite bind_Ret by reflexivity.
      erewrite bind_Ret by apply iBufferToVector_Some.
      reflexivity.
    + reflexivity.
  - cbn. split; [reflexivity | now left].
Qed.

(** The [try] block of [deriveEncryptionKey]. *)
Lemma derive_body_outcomes challenge key p :
  exists body,
    deriveEncryptionKey Pf challenge key p
    = try_catch_hresult_error body
        (fun message => cout_line message ;; ret (false, key)) p /\
    match body p with
    | (Ret (true, _), p') => cout p' = cout p
    | (Ret (false, k), p') =>
        k = key /\ exists lines,
          cout p' = cout p ++ lines /\ (List.length lines <= 1)%nat
    | (_, p') => cout p' = cout p
    end.
Proof.
  eexists. split; [reflexivity|].
  unfold bind at 1, host.
  destruct (RequestCreateAsync Pf s_winHelloKeyName FailIfExists (world p))
    as [[r|e|] w1]; [|reflexivity..].
  destruct (status_eqb (Status r) CredentialAlreadyExists).
  - unfold bind at 1, host. cbn [world cout].
    destruct (OpenAsync Pf s_winHelloKeyName w1) as [[r'|e|] w2]; [|reflexivity..].
    pose proof (sign_outcomes (CreateFromByteArray challenge) key r'
                  {| world := w2; cout := cout p |}) as H.
    cbn [cout] in H.
    destruct (deriveEncryptionKey_sign _ _ _ _ _) as [[[[] k]|e|] p']; try exact H.
    destruct H as [-> [H | H]]; split; try reflexivity.
    + exists []. rewrite app_nil_r. split; [exact H | cbn; lia].
    + eexists. split; [exact H | cbn; lia].
  - destruct (negb (status_eqb (Status r) Success)).
    + cbn. split; [reflexivity|]. eexists. split; [reflexivity | cbn; lia].
    + pose proof (sign_outcomes (CreateFromByteArray challenge) key r
                    {| world := w1; cout := cout p |}) as H.
      cbn [cout] in H.
      destruct (deriveEncryptionKey_sign _ _ _ _ _) as [[[[] k]|e|] p']; try exact H.
      destruct H as [-> [H | H]]; split; try reflexivity.
      * exists []. rewrite app_nil_r. split; [exact H | cbn; lia].
      * eexists. split; [exact H | cbn; lia].
Qed.

(** Every way [deriveEncryptionKey] ends. *)
Lemma derive_outcomes challenge key p :
  match deriveEncryptionKey Pf challenge key p with
  | (Ret (true, _), p') => cout p' = cout p
  | (Ret (false, k), p') =>
      k = key /\ exists lines,
        cout p' = cout p ++ lines /\ (List.length lines <= 1)%nat
  | (_, p') => cout p' = cout p
  end.
Proof.
  destruct (derive_body_outcomes challenge key p) as (body & -> & H).
  unfold try_catch_hresult_error.
  destruct (body p) as [[[[] k]|[message|what]|] p']; try exact H.
  cbn. split; [reflexivity|]. exists [message].
  rewrite H. split; [reflexivity | cbn; lia].
Qed.

End Failures.
(** ** Library calls *)

Lemma library_ret W A (a : A) : library_call (@ret W A a).
Proof. intros p. split; reflexivity. Qed.

Lemma library_lift W A (o : Outcome A) :
  throws_std_exception o = false -> library_call (@lift W A o).
Proof. intros H p. split; [reflexivity | exact H]. Qed.

Lemma library_bind W A B (m : M W A) (k : A -> M W B) :
  library_call m -> (forall a, library_call (k a)) -> library_call (bind m k).
Proof.
  intros Hm Hk p. unfold bind.
  destruct (Hm p) as [Hp Hs].
  destruct (m p) as [[a|[message|what]|] p']; cbn [fst snd] in *; subst p'.
  - apply Hk.
  - split; reflexivity.
  - discriminate Hs.
  - split; reflexivity.
Qed.

Lemma library_iBufferToVector W (buffer : IBuffer) :
  library_call (@iBufferToVector W buffer).
Proof.
  unfold iBufferToVector. apply library_bind.
  - apply library_lift. now destruct buffer.
  - intros reader.
    destruct (is_null buffer || (UnconsumedBufferLength reader =? 0)%nat);
      apply library_ret.
Qed.

Lemma CreateSymmetricKey_no_std p keyMaterial :
  throws_std_exception (CreateSymmetricKey p keyMaterial) = false.
Proof.
  unfold CreateSymmetricKey. destruct keyMaterial as [k|]; [|reflexivity].
  now destruct (valid_key_length _).
Qed.

Lemma OpenAlgorithm_no_std name :
  throws_std_exception (SymmetricKeyAlgorithmProvider_OpenAlgorithm name) = false.
Proof.
  unfold SymmetricKeyAlgorithmProvider_OpenAlgorithm.
  now destruct (String.eqb name AesCbcPkcs7).
Qed.

Lemma Encrypt_no_std Pf key data iv :
  throws_std_exception (Encrypt Pf key data iv) = false.
Proof.
  unfold Encrypt. now destruct data, (engine_vector Pf iv).
Qed.

Lemma Decrypt_no_std Pf key data iv :
  throws_std_exception (Decrypt Pf key data iv) = false.
Proof.
  unfold Decrypt. destruct data as [d|], (engine_vector Pf iv) as [v|];
    try reflexivity.
  destruct (_ && _); [|reflexivity].
  now destruct (CBC.decrypt _ _ _).
Qed.

(** After the key is derived, both entry points only call the library. *)
Lemma library_encrypt_with Pf cleartext key :
  library_call (encrypt_with Pf cleartext key).
Proof.
  unfold encrypt_with.
  apply library_bind; [apply library_lift, OpenAlgorithm_no_std|]. intros ?.
  apply library_bind; [apply library_lift, CreateSymmetricKey_no_std|]. intros ?.
  apply library_bind; [apply library_lift, Encrypt_no_std|]. intros ?.
  apply library_bind; [apply library_iBufferToVector|]. intros ?.
  apply library_ret.
Qed.

Lemma library_decrypt_with Pf ciphertext key :
  library_call (decrypt_with Pf ciphertext key).
Proof.
  unfold decrypt_with.
  apply library_bind; [apply library_lift, OpenAlgorithm_no_std|]. intros ?.
  apply library_bind; [apply library_lift, CreateSymmetricKey_no_std|]. intros ?.
  apply library_bind; [apply library_lift, Decrypt_no_std|]. intros ?.
  apply library_bind; [apply library_iBufferToVector|]. intros ?.
  apply library_ret.
Qed.

Lemma setEncryptionKey_try_shape Pf cleartext salt :
  setEncryptionKey_try Pf cleartext salt
  = with_derived_key Pf salt (encrypt_with Pf cleartext).
Proof. reflexivity. Qed.

Lemma getEncryptionKey_try_shape Pf ciphertext salt :
  getEncryptionKey_try Pf ciphertext salt
  = with_derived_key Pf salt (decrypt_with Pf ciphertext).
Proof. reflexivity. Qed.

(** ** The shared part of the entry points *)

Section SharedPart.

Variable Pf : Platform.
Variable tail : bytes -> M (World Pf) jbyteArray.
Hypothesis Htail : forall key, library_call (tail key).

(** Every way the shared part ends.  A returned array comes from the
    tail, run on the hash of a signature, and nothing was printed; a
    [std::exception] in flight has at most one line before it. *)
Lemma with_derived_key_outcomes salt p :
  match with_derived_key Pf salt tail p with
  | (Ret arr, p') =>
      cout p' = cout p /\
      exists S, tail (SHA256.sha256 S) p' = (Ret arr, p')
  | (Throw (std_exception _), p') =>
      exists lines, cout p' = cout p ++ lines /\ (List.length lines <= 1)%nat
  | (_, p') => cout p' = cout p
  end.
Proof.
  unfold with_derived_key, bind at 1, host.
  destruct (init_apartment Pf (world p)) as [[[]|[message|what]|] w0];
    cbn [cout]; try reflexivity.
  2:{ exists []. rewrite app_nil_r. split; [reflexivity | cbn; lia]. }
  unfold bind at 1.
  pose proof (derive_outcomes Pf (jbyteArrayToVector salt) []
                {| world := w0; cout := cout p |}) as Hd.
  cbn [cout] in Hd.
  destruct (deriveEncryptionKey Pf (jbyteArrayToVector salt) []
              {| world := w0; cout := cout p |})
    as [[[[] k]|[message|what]|] p1] eqn:Hrun; cbn [negb]; try exact Hd.
  - (* the key is derived *)
    apply derive_true in Hrun. destruct Hrun as (c & w & w' & S & _ & ->).
    destruct (Htail (SHA256.sha256 S) p1) as [Hp Hs].
    destruct (tail (SHA256.sha256 S) p1) as [[arr|[message|what]|] p'] eqn:Ht;
      cbn [fst snd] in *; subst p'; try exact Hd.
    + split; [exact Hd|]. now exists S.
    + discriminate Hs.
  - (* no key *)
    destruct Hd as [_ Hd]. exact Hd.
  - exists []. rewrite app_nil_r. split; [exact Hd | cbn; lia].
Qed.

(** The process the entry point leaves behind does not depend on the
    tail. *)
Lemma with_derived_key_effect (tail' : bytes -> M (World Pf) jbyteArray)
  (Htail' : forall key, library_call (tail' key)) salt p :
  snd (try_catch_std_exception (with_derived_key Pf salt tail)
         (catch_block Pf) p)
  = snd (try_catch_std_exception (with_derived_key Pf salt tail')
           (catch_block Pf) p).
Proof.
  unfold try_catch_std_exception, with_derived_key, bind at 1 3, host.
  destruct (init_apartment Pf (world p)) as [[[]|[message|what]|] w0];
    try reflexivity.
  unfold bind at 1 2.
  destruct (deriveEncryptionKey Pf (jbyteArrayToVector salt) []
              {| world := w0; cout := cout p |})
    as [[[[] k]|[message|what]|] p1]; cbn [negb]; try reflexivity.
  destruct (Htail k p1) as [Hp Hs], (Htail' k p1) as [Hp' Hs'].
  destruct (tail k p1) as [[arr|[message|what]|] p'],
           (tail' k p1) as [[arr'|[message'|what']|] p''];
    cbn [fst snd] in *; subst; try reflexivity; discriminate.
Qed.

End SharedPart.

(** ** Lengths after decryption *)

Lemma decrypt_blocks_length rks cs : forall prev,
  List.length (CBC.decrypt_blocks rks prev cs) = List.length cs.
Proof. induction cs as [|c cs IH]; intros prev; cbn; [reflexivity | now rewrite IH]. Qed.

Lemma pkcs7_unpad_length l X :
  CBC.pkcs7_unpad l = Some X ->
  exists n, (1 <= n <= 16)%nat /\ (List.length X + n = List.length l)%nat.
Proof.
  unfold CBC.pkcs7_unpad, AES.BlockLength.
  set (n := Byte.to_nat (last l x00)).
  destruct (_ && _) eqn:E; [|discriminate].
  intros H; injection H as <-.
  apply andb_true_iff in E. destruct E as [E _].
  apply andb_true_iff in E. destruct E as [E H3].
  apply andb_true_iff in E. destruct E as [H1 H2].
  apply Nat.leb_le in H1, H2, H3.
  exists n. split; [lia|]. rewrite length_firstn. lia.
Qed.

(** A decryption that succeeds removes between 1 and 16 bytes. *)
Lemma decrypt_length key iv data X :
  CBC.decrypt key iv data = Some X ->
  (List.length data mod 16 = 0)%nat ->
  (List.length X < List.length data <= List.length X + 16)%nat.
Proof.
  unfold CBC.decrypt, AES.BlockLength. intros H Hm.
  apply pkcs7_unpad_length in H. destruct H as (n & Hn & H).
  rewrite CBCFacts.bytes_of_blocks_length, decrypt_blocks_length,
    CBCFacts.blocks_of_length in H.
  pose proof (Nat.div_mod_eq (List.length data) 16). lia.
Qed.

(** What [getEncryptionKey] returns from its [try] block is a decryption
    of whole blocks under the hash of a signature. *)
Lemma decrypt_with_Ret Pf ciphertext (S : bytes) arr p p' :
  decrypt_with Pf ciphertext (SHA256.sha256 S) p = (Ret arr, p') ->
  exists X v,
    arr = Some X /\
    CBC.decrypt (SHA256.sha256 S) v (jbyteArrayToVector ciphertext) = Some X /\
    (List.length (jbyteArrayToVector ciphertext) mod 16 = 0)%nat.
Proof.
  unfold decrypt_with.
  erewrite bind_Ret by reflexivity.
  unfold CreateFromByteArray.
  erewrite bind_Ret
    by (unfold lift; rewrite CreateSymmetricKey_32 by apply sha256_length;
        reflexivity).
  unfold bind at 1, lift, Decrypt. cbn [KeyMaterial].
  destruct (engine_vector Pf (Some (SHA256.sha256 S))) as [v|]; [|discriminate].
  change AES.BlockLength with 16%nat.
  destruct (List.length (jbyteArrayToVector ciphertext) mod 16 =? 0)%nat eqn:Hm;
    cbn [andb]; [|discriminate].
  destruct (negb _); [|discriminate].
  destruct (CBC.decrypt _ v _) as [X|] eqn:Hd; [|discriminate].
  erewrite bind_Ret by apply iBufferToVector_Some.
  rewrite vectorToJbyteArray_Some.
  intros H; injection H as <- <-.
  exists X, v. repeat split; [assumption | now apply Nat.eqb_eq].
Qed.

(** ** The calls of an entry point *)

(** The calls [deriveEncryptionKey] makes: the creation request, then at
    most an opening and at most one signing request, which is for the
    challenge. *)
Lemma derive_calls Pf challenge key (p : Process (World (Recording Pf))) :
  exists calls,
    snd (world (snd (deriveEncryptionKey (Recording Pf) challenge key p)))
    = snd (world p)
      ++ Call_RequestCreateAsync s_winHelloKeyName FailIfExists :: calls /\
    (List.length calls <= 2)%nat /\
    (sign_requests calls = [] \/
     sign_requests calls = [Call_RequestSignAsync (Some challenge)]).
Proof.
  unfold deriveEncryptionKey. rewrite try_catch_hresult_error_log.
  unfold bind at 1, host at 1.
  cbn [RequestCreateAsync Recording]. unfold recorded at 1.
  destruct (RequestCreateAsync Pf s_winHelloKeyName FailIfExists (fst (world p)))
    as [[r|e|] w1].
  2,3: exists []; repeat split; [cbn; lia | now left].
  match goal with |- context [status_eqb ?s CredentialAlreadyExists] =>
    destruct (status_eqb s CredentialAlreadyExists) end.
  - unfold bind at 1, host at 1. cbn [OpenAsync Recording world cout].
    unfold recorded at 1. cbn [fst snd].
    destruct (OpenAsync Pf s_winHelloKeyName w1) as [[r'|e|] w2].
    2,3: exists [Call_OpenAsync s_winHelloKeyName]; cbn [world snd];
         split; [now rewrite <- app_assoc | split; [cbn; lia | now left]].
    match goal with |- context [deriveEncryptionKey_sign _ ?b ?k ?r ?q] =>
      destruct (sign_calls Pf b k r q) as (calls & Hl & Hcalls) end.
    exists (Call_OpenAsync s_winHelloKeyName :: calls). split.
    + rewrite Hl. cbn [world snd]. now rewrite <- !app_assoc.
    + destruct Hcalls as [-> | ->]; split; cbn; try lia; auto.
  - match goal with |- context [status_eqb ?s Success] =>
      destruct (negb (status_eqb s Success)) end.
    + exists []. repeat split; [cbn; lia | now left].
    + match goal with |- context [deriveEncryptionKey_sign _ ?b ?k ?r ?q] =>
        destruct (sign_calls Pf b k r q) as (calls & Hl & Hcalls) end.
      exists calls. split.
      * rewrite Hl. cbn [world snd]. now rewrite <- app_assoc.
      * destruct Hcalls as [-> | ->]; split; cbn; try lia; auto.
Qed.

Lemma catch_block_world Pf A (m : M (World Pf) jbyteArray) (f : Process (World Pf) -> A) p :
  (forall q line, f {| world := world q; cout := cout q ++ [line] |} = f q) ->
  f (snd (try_catch_std_exception m (catch_block Pf) p)) = f (snd (m p)).
Proof.
  intros Hf. unfold try_catch_std_exception.
  destruct (m p) as [[x|[message|what]|] p0]; try reflexivity.
  unfold catch_block, bind, cout_line, ret. cbn [snd]. apply Hf.
Qed.

(** The calls of an entry point: the apartment, then those of the
    derivation; the library calls of the tail add none. *)
Lemma with_derived_key_calls Pf salt
  (tail : bytes -> M (World (Recording Pf)) jbyteArray)
  (Htail : forall key, library_call (tail key))
  (p : Process (World (Recording Pf))) :
  exists calls,
    snd (world (snd (try_catch_std_exception
                       (with_derived_key (Recording Pf) salt tail)
                       (catch_block (Recording Pf)) p)))
    = snd (world p) ++ Call_init_apartment :: calls /\
    (List.length calls <= 3)%nat /\
    (sign_requests calls = [] \/
     sign_requests calls
     = [Call_RequestSignAsync (Some (jbyteArrayToVector salt))]).
Proof.
  rewrite (catch_block_world (Recording Pf) _ _ (fun q => snd (world q)))
    by reflexivity.
  unfold with_derived_key, bind at 1, host at 1.
  cbn [init_apartment Recording]. unfold recorded at 1.
  destruct (init_apartment Pf (fst (world p))) as [[[]|e|] w0].
  2,3: exists []; repeat split; [cbn; lia | now left].
  unfold bind at 1.
  match goal with |- context [deriveEncryptionKey _ ?c ?k ?q] =>
    destruct (derive_calls Pf c k q) as (calls & Hl & Hn & Hs);
    destruct (deriveEncryptionKey (Recording Pf) c k q)
      as [[[[] key]|e|] p1] end;
    cbn [negb snd world] in *.
  - destruct (Htail key p1) as [Hp _]. rewrite Hp.
    exists (Call_RequestCreateAsync s_winHelloKeyName FailIfExists :: calls).
    split; [etransitivity; [exact Hl | now rewrite <- app_assoc]|].
    split; [cbn; lia | exact Hs].
  - exists (Call_RequestCreateAsync s_winHelloKeyName FailIfExists :: calls).
    split; [etransitivity; [exact Hl | now rewrite <- app_assoc]|].
    split; [cbn; lia | exact Hs].
  - exists (Call_RequestCreateAsync s_winHelloKeyName FailIfExists :: calls).
    split; [etransitivity; [exact Hl | now rewrite <- app_assoc]|].
    split; [cbn; lia | exact Hs].
  - exists (Call_RequestCreateAsync s_winHelloKeyName FailIfExists :: calls).
    split; [etransitivity; [exact Hl | now rewrite <- app_assoc]|].
    split; [cbn; lia | exact Hs].
Qed.

(** * Further properties of the source file *)

(** X1: the two array conversions undo each other: a vector written to
    a new Java array and read back is the same vector, an array read and
    written back has the same bytes, and a null array comes back as an
    empty array, not as null. *)
Theorem X1_jbyteArray_round_trip (vec array : bytes) :
  jbyteArrayToVector (vectorToJbyteArray vec) = vec /\
  vectorToJbyteArray (jbyteArrayToVector (Some array)) = Some array /\
  vectorToJbyteArray (jbyteArrayToVector None) = Some [].
Proof.
  rewrite vectorToJbyteArray_Some, !jbyteArrayToVector_Some,
    vectorToJbyteArray_Some.
  repeat split.
Qed.

(** X2: a vector written to an [IBuffer] and read back is the same
    vector, the empty one included; reading does not throw and leaves the
    process as it was. *)
Theorem X2_IBuffer_round_trip (W : Type) (vec : bytes) (p : Process W) :
  iBufferToVector (vectorToIBuffer vec) p = (Ret vec, p).
Proof.
  unfold vectorToIBuffer, WriteBytes, DetachBuffer. cbn [written app].
  apply iBufferToVector_Some.
Qed.

(** X3: where the host throws decides what the caller sees.  A
    [winrt::hresult_error] thrown by [init_apartment] leaves the entry
    point: only [std::exception] is caught there.  Thrown by one of the
    three host calls inside the [try] block of [deriveEncryptionKey], it
    is caught: its message is printed, then "Error: Failed to generate the
    encryption key.", and the empty array is returned. *)
Theorem X3_host_error_by_place (Pf : Platform) (data salt : jbyteArray)
  (p : Process (World Pf)) (message : string) :
  let name := s_winHelloKeyName in
  let challengeBuffer := CreateFromByteArray (jbyteArrayToVector salt) in
  let thrown := hresult_error message in
  (forall w0,
     init_apartment Pf (world p) = (Throw thrown, w0) ->
     setEncryptionKey Pf data salt p
     = (Throw (hresult_error message), {| world := w0; cout := cout p |}) /\
     getEncryptionKey Pf data salt p
     = (Throw (hresult_error message), {| world := w0; cout := cout p |})) /\
  (forall w0 w',
     init_apartment Pf (world p) = (Ret tt, w0) ->
     (RequestCreateAsync Pf name FailIfExists w0 = (Throw thrown, w') \/
      (exists r w1,
         RequestCreateAsync Pf name FailIfExists w0 = (Ret r, w1) /\
         Status r = CredentialAlreadyExists /\
         OpenAsync Pf name w1 = (Throw thrown, w')) \/
      (exists r w1 c,
         RequestCreateAsync Pf name FailIfExists w0 = (Ret r, w1) /\
         Status r = Success /\ Credential r = Some c /\
         RequestSignAsync Pf c challengeBuffer w1 = (Throw thrown, w')) \/
      (exists r w1 r' w2 c,
         RequestCreateAsync Pf name FailIfExists w0 = (Ret r, w1) /\
         Status r = CredentialAlreadyExists /\
         OpenAsync Pf name w1 = (Ret r', w2) /\ Credential r' = Some c /\
         RequestSignAsync Pf c challengeBuffer w2 = (Throw thrown, w'))) ->
     setEncryptionKey Pf data salt p
     = (Ret (Some []),
        {| world := w'; cout := cout p ++ [message; key_failure] |}) /\
     getEncryptionKey Pf data salt p
     = (Ret (Some []),
        {| world := w'; cout := cout p ++ [message; key_failure] |})).
Proof.
  cbv zeta. split.
  - intros w0 H0.
    unfold setEncryptionKey, getEncryptionKey, try_catch_std_exception,
      setEncryptionKey_try, getEncryptionKey_try.
    erewrite !bind_Throw by (unfold host; rewrite H0; reflexivity).
    split; reflexivity.
  - intros w0 w' H0 Hthrown.
    assert (Hd : deriveEncryptionKey Pf (jbyteArrayToVector salt) []
                   {| world := w0; cout := cout p |}
                 = (Ret (false, []),
                    {| world := w'; cout := cout p ++ [message] |})).
    { unfold deriveEncryptionKey, try_catch_hresult_error.
      destruct Hthrown as [Hc | [(r & w1 & Hc & Hs & Ho)
                          | [(r & w1 & c & Hc & Hs & Hr & Hg)
                          | (r & w1 & r' & w2 & c & Hc & Hs & Ho & Hr & Hg)]]].
      - erewrite bind_Throw by (unfold host; cbn [world]; rewrite Hc; reflexivity).
        reflexivity.
      - erewrite bind_Ret by (apply host_Ret, Hc).
        rewrite Hs. cbn [status_eqb].
        erewrite bind_Throw by (unfold host; cbn [world]; rewrite Ho; reflexivity).
        reflexivity.
      - erewrite bind_Ret by (apply host_Ret, Hc).
        rewrite Hs. cbn [status_eqb negb].
        unfold deriveEncryptionKey_sign. rewrite Hr.
        erewrite bind_Throw by (unfold host; cbn [world]; rewrite Hg; reflexivity).
        reflexivity.
      - erewrite bind_Ret by (apply host_Ret, Hc).
        rewrite Hs. cbn [status_eqb].
        erewrite bind_Ret by (apply host_Ret, Ho).
        unfold deriveEncryptionKey_sign. rewrite Hr.
        erewrite bind_Throw by (unfold host; cbn [world]; rewrite Hg; reflexivity).
        reflexivity. }
    unfold setEncryptionKey, getEncryptionKey, try_catch_std_exception,
      setEncryptionKey_try, getEncryptionKey_try.
    split.
    + erewrite bind_Ret by (apply host_Ret, H0).
      erewrite bind_Ret by exact Hd.
      cbn. now rewrite <- app_assoc.
    + erewrite bind_Ret by (apply host_Ret, H0).
      erewrite bind_Ret by exact Hd.
      cbn. now rewrite <- app_assoc.
Qed.

Lemma X3_host_error_witness :
  let p := {| world := tt; cout := [] |} in
  (init_apartment (throwing_at in_init_apartment E_POINTER) tt
   = (Throw (hresult_error E_POINTER), tt) /\
   setEncryptionKey (throwing_at in_init_apartment E_POINTER)
     (Some master_key) (Some salt_0) p
   = (Throw (hresult_error E_POINTER), p) /\
   getEncryptionKey (throwing_at in_init_apartment E_POINTER)
     (Some master_key) (Some salt_0) p
   = (Throw (hresult_error E_POINTER), p)) /\
  (RequestSignAsync (throwing_at in_RequestSignAsync E_POINTER) tt
     (Some salt_0) tt
   = (Throw (hresult_error E_POINTER), tt) /\
   setEncryptionKey (throwing_at in_RequestSignAsync E_POINTER)
     (Some master_key) (Some salt_0) p
   = (Ret (Some []), {| world := tt; cout := [E_POINTER; key_failure] |}) /\
   getEncryptionKey (throwing_at in_RequestSignAsync E_POINTER)
     (Some master_key) (Some salt_0) p
   = (Ret (Some []), {| world := tt; cout := [E_POINTER; key_failure] |})).
Proof.
  cbv zeta. split; (split; [reflexivity|]).
  - exact (proj1 (X3_host_error_by_place (throwing_at in_init_apartment E_POINTER)
                    (Some master_key) (Some salt_0)
                    {| world := tt; cout := [] |} E_POINTER) tt eq_refl).
  - apply (proj2 (X3_host_error_by_place (throwing_at in_RequestSignAsync E_POINTER)
                    (Some master_key) (Some salt_0)
                    {| world := tt; cout := [] |} E_POINTER) tt tt eq_refl).
    right. right. right.
    exists {| Status := CredentialAlreadyExists; Credential := None |}, tt,
           {| Status := Success; Credential := Some tt |}, tt, tt.
    repeat split.
Defined.

(** X4: when [deriveEncryptionKey] returns false, on any host, the
    vector [key] is as the caller passed it, and at most one line was
    printed. *)
Theorem X4_failed_derivation_leaves_the_key (Pf : Platform)
  (challenge key k : bytes) (p p' : Process (World Pf)) :
  deriveEncryptionKey Pf challenge key p = (Ret (false, k), p') ->
  k = key /\
  exists lines, cout p' = cout p ++ lines /\ (List.length lines <= 1)%nat.
Proof.
  intros H. pose proof (derive_outcomes Pf challenge key p) as Ho.
  rewrite H in Ho. exact Ho.
Qed.

Lemma X4_failed_derivation_witness :
  let Pf := Mock.platform (Mock.refusing_signer SecurityDeviceLocked) in
  let p' := {| world := [s_winHelloKeyName];
               cout := ["Failed to sign challenge using Windows Hello."%string] |} in
  deriveEncryptionKey Pf C_0_to_f salt_0 Mock.fresh = (Ret (false, salt_0), p') /\
  salt_0 = salt_0 /\
  exists lines,
    cout p' = cout Mock.fresh ++ lines /\ (List.length lines <= 1)%nat.
Proof.
  cbv zeta. split; [vm_compute; reflexivity|].
  apply (X4_failed_derivation_leaves_the_key
           (Mock.platform (Mock.refusing_signer SecurityDeviceLocked))
           C_0_to_f salt_0 salt_0 Mock.fresh).
  vm_compute. reflexivity.
Defined.

(** X5: when the derivation of the key fails, both entry points throw
    and catch their [std::runtime_error]: whatever the data, they return
    the empty array and print the line "Error: Failed to generate the
    encryption key." after what the derivation printed. *)
Theorem X5_no_key_no_result (Pf : Platform) (data salt : jbyteArray)
  (k : bytes) (w0 : World Pf) (p p1 : Process (World Pf)) :
  init_apartment Pf (world p) = (Ret tt, w0) ->
  deriveEncryptionKey Pf (jbyteArrayToVector salt) []
    {| world := w0; cout := cout p |} = (Ret (false, k), p1) ->
  setEncryptionKey Pf data salt p
  = (Ret (Some []), {| world := world p1; cout := cout p1 ++ [key_failure] |}) /\
  getEncryptionKey Pf data salt p
  = (Ret (Some []), {| world := world p1; cout := cout p1 ++ [key_failure] |}).
Proof.
  intros H0 Hd. split.
  - unfold setEncryptionKey, try_catch_std_exception, setEncryptionKey_try.
    erewrite bind_Ret by (apply host_Ret, H0).
    erewrite bind_Ret by exact Hd. reflexivity.
  - unfold getEncryptionKey, try_catch_std_exception, getEncryptionKey_try.
    erewrite bind_Ret by (apply host_Ret, H0).
    erewrite bind_Ret by exact Hd. reflexivity.
Qed.

Lemma X5_no_key_witness :
  let Pf := Mock.platform (Mock.no_hello NotFound) in
  let p1 := {| world := [];
               cout := ["Failed to create Windows Hello credential."%string] |} in
  init_apartment Pf (world Mock.fresh) = (Ret tt, []) /\
  deriveEncryptionKey Pf (jbyteArrayToVector (Some C_0_to_f)) []
    {| world := []; cout := cout Mock.fresh |} = (Ret (false, []), p1) /\
  setEncryptionKey Pf (Some master_key) (Some C_0_to_f) Mock.fresh
  = (Ret (Some []), {| world := world p1; cout := cout p1 ++ [key_failure] |}) /\
  getEncryptionKey Pf (Some master_key) (Some C_0_to_f) Mock.fresh
  = (Ret (Some []), {| world := world p1; cout := cout p1 ++ [key_failure] |}).
Proof.
  cbv zeta. split; [reflexivity|]. split; [vm_compute; reflexivity|].
  apply (X5_no_key_no_result (Mock.platform (Mock.no_hello NotFound))
           (Some master_key) (Some C_0_to_f) [] []).
  - reflexivity.
  - vm_compute. reflexivity.
Defined.

(** X6: an array returned by [setEncryptionKey] tells success from
    failure.  Either it is not empty, a whole number of blocks, and
    nothing was printed; or it is empty and the last line printed starts
    with "Error: ", after at most one other line. *)
Theorem X6_empty_envelope_means_failure (Pf : Platform)
  (cleartext salt arr : jbyteArray) (p p' : Process (World Pf)) :
  setEncryptionKey Pf cleartext salt p = (Ret arr, p') ->
  exists E,
    arr = Some E /\
    ((0 < List.length E /\ List.length E mod 16 = 0 /\ cout p' = cout p)%nat \/
     (E = [] /\
      exists lines what,
        (List.length lines <= 1)%nat /\
        cout p' = cout p ++ lines ++ [("Error: " ++ what)%string])).
Proof.
  pose proof (with_derived_key_outcomes Pf (encrypt_with Pf cleartext)
                (library_encrypt_with Pf cleartext) salt p) as Ho.
  rewrite <- setEncryptionKey_try_shape in Ho.
  unfold setEncryptionKey, try_catch_std_exception.
  destruct (setEncryptionKey_try Pf cleartext salt p)
    as [[a|[m|w]|] p0] eqn:Ht; try discriminate.
  - intros H; injection H as <- <-.
    destruct (setEncryptionKey_try_Ret Pf _ _ _ _ _ Ht) as (S & ->).
    eexists. split; [reflexivity|]. left.
    rewrite CBCFacts.encrypt_length. split; [lia|]. split; [|apply Ho].
    rewrite Nat.mul_comm. apply Nat.Div0.mod_mul.
  - unfold catch_block, bind, cout_line, ret.
    intros H; injection H as <- <-.
    exists []. split; [reflexivity|]. right. split; [reflexivity|].
    destruct Ho as (lines & Hl & Hn).
    exists lines, w. split; [exact Hn|]. cbn [cout].
    now rewrite Hl, <- app_assoc.
Qed.

Lemma X6_empty_envelope_witness :
  let E := CBC.encrypt (SHA256.sha256 S_fixed64)
             (key_vector scenario (SHA256.sha256 S_fixed64)) P_zero32 in
  setEncryptionKey scenario (Some P_zero32) (Some C_0_to_f) Mock.fresh
  = (Ret (Some E), Mock.enrolled) /\
  exists E',
    Some E = Some E' /\
    ((0 < List.length E' /\ List.length E' mod 16 = 0
      /\ cout Mock.enrolled = cout Mock.fresh)%nat \/
     (E' = [] /\
      exists lines what,
        (List.length lines <= 1)%nat /\
        cout Mock.enrolled
        = cout Mock.fresh ++ lines ++ [("Error: " ++ what)%string])).
Proof.
  cbv zeta. split; [vm_compute; reflexivity|].
  apply (X6_empty_envelope_means_failure scenario (Some P_zero32)
           (Some C_0_to_f)).
  vm_compute. reflexivity.
Defined.

(** X7: when the [try] block of [getEncryptionKey] returns, nothing was
    printed, the ciphertext was a whole number of blocks, and the
    plaintext is shorter than the ciphertext by 1 to 16 bytes. *)
Theorem X7_plaintext_is_shorter (Pf : Platform)
  (ciphertext salt arr : jbyteArray) (p p' : Process (World Pf)) :
  getEncryptionKey_try Pf ciphertext salt p = (Ret arr, p') ->
  exists X,
    arr = Some X /\
    getEncryptionKey Pf ciphertext salt p = (Ret (Some X), p') /\
    cout p' = cout p /\
    (List.length (jbyteArrayToVector ciphertext) mod 16 = 0)%nat /\
    (List.length X < List.length (jbyteArrayToVector ciphertext)
     <= List.length X + 16)%nat.
Proof.
  intros Ht.
  pose proof (with_derived_key_outcomes Pf (decrypt_with Pf ciphertext)
                (library_decrypt_with Pf ciphertext) salt p) as Ho.
  rewrite <- getEncryptionKey_try_shape, Ht in Ho.
  destruct Ho as (Hc & S & Hd).
  apply decrypt_with_Ret in Hd. destruct Hd as (X & v & -> & Hd & Hm).
  exists X. split; [reflexivity|].
  split; [unfold getEncryptionKey; now apply try_catch_std_exception_passes|].
  split; [exact Hc|]. split; [exact Hm|].
  now apply (decrypt_length _ _ _ _ Hd).
Qed.

Lemma X7_plaintext_is_shorter_witness :
  let E := CBC.encrypt (SHA256.sha256 S_fixed64)
             (key_vector scenario (SHA256.sha256 S_fixed64)) P_zero32 in
  getEncryptionKey_try scenario (Some E) (Some C_0_to_f) Mock.enrolled
  = (Ret (Some P_zero32), Mock.enrolled) /\
  exists X,
    Some P_zero32 = Some X /\
    getEncryptionKey scenario (Some E) (Some C_0_to_f) Mock.enrolled
    = (Ret (Some X), Mock.enrolled) /\
    cout Mock.enrolled = cout Mock.enrolled /\
    (List.length (jbyteArrayToVector (Some E)) mod 16 = 0)%nat /\
    (List.length X < List.length (jbyteArrayToVector (Some E))
     <= List.length X + 16)%nat.
Proof.
  cbv zeta. split; [vm_compute; reflexivity|].
  apply (X7_plaintext_is_shorter scenario). vm_compute. reflexivity.
Defined.

(** X8: on a host that records its calls, one invocation of an entry
    point enters the apartment first, makes at most three more calls, and
    asks for at most one signature: that of the salt.  The clear text and
    the ciphertext are never handed to the host. *)
Theorem X8_one_signing_request_for_the_salt (Pf : Platform)
  (data salt : jbyteArray) (p : Process (World (Recording Pf))) :
  (exists calls,
     snd (world (snd (setEncryptionKey (Recording Pf) data salt p)))
     = snd (world p) ++ Call_init_apartment :: calls /\
     (List.length calls <= 3)%nat /\
     (sign_requests calls = [] \/
      sign_requests calls
      = [Call_RequestSignAsync (Some (jbyteArrayToVector salt))])) /\
  (exists calls,
     snd (world (snd (getEncryptionKey (Recording Pf) data salt p)))
     = snd (world p) ++ Call_init_apartment :: calls /\
     (List.length calls <= 3)%nat /\
     (sign_requests calls = [] \/
      sign_requests calls
      = [Call_RequestSignAsync (Some (jbyteArrayToVector salt))])).
Proof.
  split.
  - unfold setEncryptionKey. rewrite setEncryptionKey_try_shape.
    apply with_derived_key_calls, library_encrypt_with.
  - unfold getEncryptionKey. rewrite getEncryptionKey_try_shape.
    apply with_derived_key_calls, library_decrypt_with.
Qed.

(** X9: what an invocation leaves behind, in the host and on standard
    output, depends on the salt and not on the data, and is the same for
    [setEncryptionKey] and [getEncryptionKey]: nothing about the clear
    text or the ciphertext is printed or stored. *)
Theorem X9_effects_depend_on_the_salt_only (Pf : Platform)
  (data data' salt : jbyteArray) (p : Process (World Pf)) :
  snd (setEncryptionKey Pf data salt p) = snd (setEncryptionKey Pf data' salt p) /\
  snd (getEncryptionKey Pf data salt p) = snd (getEncryptionKey Pf data' salt p) /\
  snd (setEncryptionKey Pf data salt p) = snd (getEncryptionKey Pf data' salt p).
Proof.
  unfold setEncryptionKey, getEncryptionKey.
  rewrite !setEncryptionKey_try_shape, !getEncryptionKey_try_shape.
  repeat split; apply with_derived_key_effect;
    intros key; first [apply library_encrypt_with | apply library_decrypt_with].
Qed.

(** X10: the status of [OpenAsync] is not examined.  When the credential
    exists and the opening answers without a credential, the signing
    request is made on a null reference: neither [catch] clause applies,
    no array is returned and nothing is printed. *)
Theorem X10_unopened_credential_is_dereferenced (Pf : Platform)
  (data salt : jbyteArray) (p : Process (World Pf))
  (w0 w1 w2 : World Pf)
  (r r' : KeyCredentialRetrievalResult (KeyCredential Pf)) :
  init_apartment Pf (world p) = (Ret tt, w0) ->
  RequestCreateAsync Pf s_winHelloKeyName FailIfExists w0 = (Ret r, w1) ->
  Status r = CredentialAlreadyExists ->
  OpenAsync Pf s_winHelloKeyName w1 = (Ret r', w2) ->
  Credential r' = None ->
  setEncryptionKey Pf data salt p = (NullDeref, {| world := w2; cout := cout p |}) /\
  getEncryptionKey Pf data salt p = (NullDeref, {| world := w2; cout := cout p |}).
Proof.
  intros H0 Hc Hs Ho Hn.
  assert (Hd : forall challenge key,
             deriveEncryptionKey Pf challenge key {| world := w0; cout := cout p |}
             = (NullDeref, {| world := w2; cout := cout p |})).
  { intros challenge key. unfold deriveEncryptionKey, try_catch_hresult_error.
    erewrite bind_Ret by (apply host_Ret, Hc).
    rewrite Hs. cbn [status_eqb].
    erewrite bind_Ret by (apply host_Ret, Ho).
    unfold deriveEncryptionKey_sign. rewrite Hn. reflexivity. }
  split.
  - unfold setEncryptionKey, try_catch_std_exception, setEncryptionKey_try.
    erewrite bind_Ret by (apply host_Ret, H0).
    unfold bind at 1. now rewrite Hd.
  - unfold getEncryptionKey, try_catch_std_exception, getEncryptionKey_try.
    erewrite bind_Ret by (apply host_Ret, H0).
    unfold bind at 1. now rewrite Hd.
Qed.

Lemma X10_unopened_credential_witness :
  let Pf := unopenable NotFound in
  let p := {| world := tt; cout := [] |} in
  init_apartment Pf (world p) = (Ret tt, tt) /\
  RequestCreateAsync Pf s_winHelloKeyName FailIfExists tt
  = (Ret {| Status := CredentialAlreadyExists; Credential := None |}, tt) /\
  OpenAsync Pf s_winHelloKeyName tt
  = (Ret {| Status := NotFound; Credential := None |}, tt) /\
  setEncryptionKey Pf (Some master_key) (Some salt_0) p
  = (NullDeref, {| world := tt; cout := cout p |}) /\
  getEncryptionKey Pf (Some master_key) (Some salt_0) p
  = (NullDeref, {| world := tt; cout := cout p |}).
Proof.
  cbv zeta. do 3 (split; [reflexivity|]).
  exact (X10_unopened_credential_is_dereferenced (unopenable NotFound)
           (Some master_key) (Some salt_0) {| world := tt; cout := [] |}
           tt tt tt _ _ eq_refl eq_refl eq_refl eq_refl eq_refl).
Defined.
